(** * OpenMindWell: chat server and crisis classifier

    A shallow embedding of
      - [backend/src/services/crisisDetection.ts] (keyword scan, emotion
        thresholds, resource messages), and
      - the WebSocket [ChatServer] class (rooms, join / leave / chat
        handlers, disconnect, heartbeat, room broadcast),
    followed by the properties of the specification that concern them. *)

From Stdlib Require Import String Ascii List Bool Arith ZArith QArith Lia.
From Stdlib Require Import Sorted Permutation.
Import ListNotations.
Close Scope Q_scope.
Open Scope string_scope.

(* ================================================================= *)
(** ** JavaScript conventions shared by both files *)

Module Js.

(** A computation that either returns or throws.  [Raise] carries the
    text of the exception. *)
Inductive Exc (A : Type) : Type :=
| Ret (a : A)
| Raise (reason : string).
Arguments Ret {A} a.
Arguments Raise {A} reason.

Definition bind {A B} (c : Exc A) (k : A -> Exc B) : Exc B :=
  match c with
  | Ret a => k a
  | Raise r => Raise r
  end.

(** [try { c } catch (error) { h error }] *)
Definition try_catch {A} (c : Exc A) (h : string -> Exc A) : Exc A :=
  match c with
  | Ret a => Ret a
  | Raise r => h r
  end.

(** Truthiness of an optional string field: [undefined] and the empty
    string are falsy, every other string is truthy. *)
Definition truthy (v : option string) : bool :=
  match v with
  | Some (String _ _) => true
  | _ => false
  end.

(** [a || b] on optional strings. *)
Definition or_else (a b : option string) : option string :=
  if truthy a then a else b.

(** [haystack.includes(needle)] : substring search. *)
Fixpoint includes (needle haystack : string) : bool :=
  String.prefix needle haystack ||
  match haystack with
  | EmptyString => false
  | String _ rest => includes needle rest
  end.

(** [arr.includes(x)] on an array of strings. *)
Definition array_includes (arr : list string) (x : string) : bool :=
  existsb (String.eqb x) arr.

(** [arr.indexOf(x)] : position of the first occurrence, [-1] if absent. *)
Fixpoint indexOf {A} (eqb : A -> A -> bool) (arr : list A) (x : A) : Z :=
  match arr with
  | [] => (-1)%Z
  | y :: rest =>
      if eqb y x then 0%Z
      else let i := indexOf eqb rest x in
           if (i <? 0)%Z then (-1)%Z else (i + 1)%Z
  end.

(** The ASCII part of [String.prototype.toLowerCase]: the letters A-Z are
    mapped to a-z, every other byte is kept.  It serves as the concrete
    lower-casing in the worked examples; the classifier itself is written
    against the [toLowerCase] field of its environment. *)
Definition lower_ascii (c : ascii) : ascii :=
  let n := nat_of_ascii c in
  if (65 <=? n)%nat && (n <=? 90)%nat then ascii_of_nat (n + 32) else c.

Fixpoint asciiLowerCase (s : string) : string :=
  match s with
  | EmptyString => EmptyString
  | String c rest => String (lower_ascii c) (asciiLowerCase rest)
  end.

End Js.

(* ================================================================= *)
(** ** crisisDetection.ts *)

Module CrisisDetection.
Import Js.

Record EmotionScore := {
  label : string;
  score : Q
}.

(** ['none' | 'low' | 'medium' | 'high' | 'critical'] *)
Inductive RiskLevel := none | low | medium | high | critical.

Definition RiskLevel_eqb (a b : RiskLevel) : bool :=
  match a, b with
  | none, none | low, low | medium, medium
  | high, high | critical, critical => true
  | _, _ => false
  end.

Record CrisisDetectionResult := {
  isCrisis : bool;
  riskLevel : RiskLevel;
  detectedEmotions : option (list string);
  triggeredKeywords : option (list string);
  confidence : Q
}.

(** Crisis keywords categorized by severity.  The object is indexed by
    the four level names; [none] is not a key. *)
Definition CRISIS_KEYWORDS (level : RiskLevel) : list string :=
  match level with
  | critical =>
      [ "suicide"; "kill myself"; "end my life"; "want to die";
        "better off dead"; "no reason to live"; "goodbye world";
        "final goodbye" ]
  | high =>
      [ "self harm"; "cut myself"; "hurt myself"; "overdose"; "jump off";
        "hang myself"; "planning to"; "going to hurt" ]
  | medium =>
      [ "hopeless"; "worthless"; "cant go on"; "no point"; "give up";
        "ending it"; "rather be dead"; "disappear forever" ]
  | low =>
      [ "depressed"; "anxious"; "scared"; "alone"; "struggling";
        "hard time"; "overwhelming"; "cant cope" ]
  | none => []
  end.

Definition HIGH_RISK_EMOTIONS : list string := ["sadness"; "fear"; "anger"].
Definition MEDIUM_RISK_EMOTIONS : list string := ["disgust"; "surprise"].

Definition RISK_LEVELS : list RiskLevel := [none; low; medium; high; critical].

Definition levelIndex (l : RiskLevel) : Z := indexOf RiskLevel_eqb RISK_LEVELS l.

(** [a > b] on numbers. *)
Definition Qgtb (a b : Q) : bool := negb (Qle_bool a b).

(** The HTTP response of the inference endpoint, as far as the code looks
    at it.  [json] is the outcome of [await response.json()], read at the
    declared type [HuggingFaceResponse[][]]; a body that does not parse
    makes it throw. *)
Record HttpResponse := {
  ok : bool;
  statusText : string;
  json : Exc (list (list EmotionScore))
}.

(** What the classifier reads from outside: the engine's lower-casing,
    the configured token, and the network ([fetch] throws when the
    service cannot be reached or the request is aborted). *)
Record Env := {
  toLowerCase : string -> string;
  apiToken : option string;
  fetch : string -> Exc HttpResponse
}.

(** Analyze message using HuggingFace emotion detection model *)
Definition analyzeWithHuggingFace (env : Env) (message : string)
  : Exc (option (list EmotionScore)) :=
  if negb (truthy (apiToken env)) then Ret None
  else
    try_catch
      (bind (fetch env message) (fun response =>
         if negb (ok response) then Ret None
         else
           bind (json response) (fun result =>
             Ret (match result with
                  | first :: _ => Some first     (* result[0] || null *)
                  | [] => None
                  end))))
      (fun _ => Ret None).

(** The mutable locals of the keyword loop. *)
Record KeywordScan := {
  scan_triggered : list string;
  scan_highest : RiskLevel
}.

(** Body of the inner [for (const keyword of keywords)] loop. *)
Definition scanKeyword (lowerMessage : string) (level : RiskLevel)
    (acc : KeywordScan) (keyword : string) : KeywordScan :=
  if includes keyword lowerMessage then
    let currentLevelIndex := levelIndex (scan_highest acc) in
    let newLevelIndex := levelIndex level in
    {| scan_triggered := scan_triggered acc ++ [keyword];
       scan_highest := if (newLevelIndex >? currentLevelIndex)%Z
                       then level else scan_highest acc |}
  else acc.

(** Body of the outer [for (const level of levels)] loop. *)
Definition scanLevel (lowerMessage : string) (acc : KeywordScan)
    (level : RiskLevel) : KeywordScan :=
  fold_left (scanKeyword lowerMessage level) (CRISIS_KEYWORDS level) acc.

Definition levels : list RiskLevel := [critical; high; medium; low].

(** Analyze message using keyword matching (fallback) *)
Definition analyzeWithKeywords (env : Env) (message : string)
  : CrisisDetectionResult :=
  let lowerMessage := toLowerCase env message in
  let final :=
    fold_left (scanLevel lowerMessage) levels
              {| scan_triggered := []; scan_highest := none |} in
  {| isCrisis := negb (RiskLevel_eqb (scan_highest final) none);
     riskLevel := scan_highest final;
     detectedEmotions := None;
     triggeredKeywords := Some (scan_triggered final);
     confidence := if (0 <? length (scan_triggered final))%nat
                   then (7 # 10)%Q else 0%Q |}.

(** The mutable locals of the emotion loop. *)
Record EmotionScan := {
  em_riskLevel : RiskLevel;
  em_maxScore : Q
}.

(** Body of [for (const emotion of emotions)]. *)
Definition scanEmotion (acc : EmotionScan) (emotion : EmotionScore)
  : EmotionScan :=
  let maxScore :=
    if Qgtb (score emotion) (em_maxScore acc) then score emotion
    else em_maxScore acc in
  let riskLevel := em_riskLevel acc in
  let riskLevel' :=
    if array_includes HIGH_RISK_EMOTIONS (label emotion)
       && Qgtb (score emotion) (1 # 2)%Q
    then
      let potentialRisk := if Qgtb (score emotion) (7 # 10)%Q
                           then high else medium in
      if (levelIndex potentialRisk >? levelIndex riskLevel)%Z
      then potentialRisk else riskLevel
    else if array_includes MEDIUM_RISK_EMOTIONS (label emotion)
            && Qgtb (score emotion) (6 # 10)%Q
    then
      if RiskLevel_eqb riskLevel none then low else riskLevel
    else riskLevel in
  {| em_riskLevel := riskLevel'; em_maxScore := maxScore |}.

(** Main crisis detection function *)
Definition detectCrisis (env : Env) (message : string)
  : Exc CrisisDetectionResult :=
  bind (analyzeWithHuggingFace env message) (fun emotions =>
    match emotions with
    | Some ((_ :: _) as emotions) =>
        let detectedEmotions := map label emotions in
        let ai :=
          fold_left scanEmotion emotions
                    {| em_riskLevel := none; em_maxScore := 0%Q |} in
        (* Also run keyword analysis and take the higher risk level *)
        let keywordResult := analyzeWithKeywords env message in
        let aiRiskIndex := levelIndex (em_riskLevel ai) in
        let keywordRiskIndex := levelIndex (riskLevel keywordResult) in
        let riskLevel :=
          if (keywordRiskIndex >? aiRiskIndex)%Z
          then riskLevel keywordResult else em_riskLevel ai in
        Ret {| isCrisis := negb (RiskLevel_eqb riskLevel none);
               riskLevel := riskLevel;
               detectedEmotions := Some detectedEmotions;
               triggeredKeywords := triggeredKeywords keywordResult;
               confidence := em_maxScore ai |}
    | _ =>
        (* Fallback to keyword analysis *)
        Ret (analyzeWithKeywords env message)
    end).

Definition LF : string := String (ascii_of_nat 10) EmptyString.

Definition baseMessage : string :=
  "🆘 **Crisis Resources** 🆘" ++ LF ++ LF ++
  "**If you are in immediate danger, please call emergency services (911/112/999).**"
  ++ LF ++ LF.

Definition resources : string :=
  "**24/7 Crisis Hotlines:**" ++ LF ++
  "• US: Call/Text **988** (Suicide & Crisis Lifeline)" ++ LF ++
  "• US: Text **HOME** to **741741** (Crisis Text Line)" ++ LF ++
  "• International: **findahelpline.com**" ++ LF ++ LF ++
  "**You are not alone. Help is available.**".

(** Get crisis resources message based on risk level *)
Definition getCrisisResourcesMessage (riskLevel : RiskLevel) : string :=
  if RiskLevel_eqb riskLevel critical || RiskLevel_eqb riskLevel high then
    baseMessage ++
    "⚠️ **This message may indicate a mental health crisis.** ⚠️" ++ LF ++ LF ++
    "Please reach out to a crisis professional immediately:" ++ LF ++ LF ++
    resources
  else if RiskLevel_eqb riskLevel medium then
    baseMessage ++
    "If you're struggling, consider reaching out:" ++ LF ++ LF ++
    resources
  else
    "💙 **Support Resources** 💙" ++ LF ++ LF ++
    "If you need support, here are some resources:" ++ LF ++ LF ++
    resources.

(** What a resource message contains. *)
Definition has_emergency_reminder (m : string) : bool :=
  includes "please call emergency services (911/112/999)" m.

Definition has_urgent_call (m : string) : bool :=
  includes "Please reach out to a crisis professional immediately" m.

Definition has_hotlines (m : string) : bool := includes resources m.


End CrisisDetection.

(* ================================================================= *)
(** ** The [Map] of the JavaScript runtime *)

(** A [Map<string, V>] keeps its entries in insertion order; [set] on a
    key that is present replaces the value in place, [forEach] visits
    the entries in that order.  Keys are unique in every map built from
    [empty] by [set] and [delete] ([wf]). *)
Module JsMap.

Definition t (V : Type) : Type := list (string * V).

Definition empty {V} : t V := [].

Fixpoint get {V} (m : t V) (k : string) : option V :=
  match m with
  | [] => None
  | (k', v) :: rest => if String.eqb k' k then Some v else get rest k
  end.

Definition has {V} (m : t V) (k : string) : bool :=
  match get m k with
  | Some _ => true
  | None => false
  end.

Fixpoint set {V} (m : t V) (k : string) (v : V) : t V :=
  match m with
  | [] => [(k, v)]
  | (k', v') :: rest =>
      if String.eqb k' k then (k, v) :: rest
      else (k', v') :: set rest k v
  end.

Fixpoint delete {V} (m : t V) (k : string) : t V :=
  match m with
  | [] => []
  | (k', v') :: rest =>
      if String.eqb k' k then rest else (k', v') :: delete rest k
  end.

Definition keys {V} (m : t V) : list string := map fst m.

Definition values {V} (m : t V) : list V := map snd m.

Definition wf {V} (m : t V) : Prop := NoDup (keys m).

End JsMap.

(* ================================================================= *)
(** ** The chat server *)

Module ChatServer.
Import Js CrisisDetection.

(** A WebSocket object is identified by its handle. *)
Definition Conn := nat.

(** An instant: what [new Date()] reads and what the database stamps on
    a row ([created_at]). *)
Definition Timestamp := nat.

Inductive MessageType :=
| type_join | type_leave | type_chat | type_crisis_alert | type_other.

(** An inbound frame after [JSON.parse], at the declared type
    [ChatMessage] (the server reads [type], [roomId], [userId],
    [nickname] and [content] only). *)
Record ChatMessage := {
  msg_type : MessageType;
  msg_roomId : option string;
  msg_userId : option string;
  msg_nickname : option string;
  msg_content : option string
}.

(** A row of the [messages] table. *)
Record MessageRow := {
  room_id : string;
  user_id : string;
  row_nickname : option string;
  row_content : string;
  risk_level : RiskLevel;
  created_at : Timestamp
}.

(** The objects given to [JSON.stringify] before [ws.send]. *)
Inductive Frame :=
| ErrorFrame (message : string)
| HistoryFrame (messages : list MessageRow)
| JoinEvent (userId nickname : string) (timestamp : Timestamp)
| LeaveEvent (userId : string) (nickname : option string)
             (timestamp : Timestamp)
| ChatEvent (userId : string) (nickname : option string) (content : string)
            (timestamp : Timestamp) (riskLevel : RiskLevel)
| CrisisAlert (riskLevel : RiskLevel) (message : string)
              (timestamp : Timestamp).

Inductive ReadyState := CONNECTING | OPEN | CLOSING | CLOSED.

Definition ReadyState_eqb (a b : ReadyState) : bool :=
  match a, b with
  | CONNECTING, CONNECTING | OPEN, OPEN
  | CLOSING, CLOSING | CLOSED, CLOSED => true
  | _, _ => false
  end.

(** The fields of a WebSocket object the server reads or writes:
    [(ws as any).roomId / userId / nickname / isAlive] and
    [ws.readyState]. *)
Record Socket := {
  ws_roomId : option string;
  ws_userId : option string;
  ws_nickname : option string;
  isAlive : bool;
  readyState : ReadyState
}.

Record RoomMember := {
  ws : Conn;
  userId : string;
  nickname : string
}.

Definition Room := JsMap.t RoomMember.

(** Server state: [this.rooms], the WebSocket objects, [this.wss.clients],
    the [messages] table behind [supabase], and the log of [ws.send]
    calls in call order. *)
Record State := {
  rooms : JsMap.t Room;
  sockets : Conn -> Socket;
  clients : list Conn;
  messages : list MessageRow;
  sent : list (Conn * Frame)
}.

Definition fresh_socket : Socket :=
  {| ws_roomId := None; ws_userId := None; ws_nickname := None;
     isAlive := true; readyState := OPEN |}.

(** [new ChatServer(server)] *)
Definition initial : State :=
  {| rooms := JsMap.empty; sockets := fun _ => fresh_socket;
     clients := []; messages := []; sent := [] |}.

Definition set_rooms (r : JsMap.t Room) (st : State) : State :=
  {| rooms := r; sockets := sockets st; clients := clients st;
     messages := messages st; sent := sent st |}.

Definition set_socket (c : Conn) (s : Socket) (st : State) : State :=
  {| rooms := rooms st;
     sockets := fun c' => if Nat.eqb c' c then s else sockets st c';
     clients := clients st; messages := messages st; sent := sent st |}.

Definition set_clients (cs : list Conn) (st : State) : State :=
  {| rooms := rooms st; sockets := sockets st; clients := cs;
     messages := messages st; sent := sent st |}.

Definition set_messages (ms : list MessageRow) (st : State) : State :=
  {| rooms := rooms st; sockets := sockets st; clients := clients st;
     messages := ms; sent := sent st |}.

Definition set_sent (l : list (Conn * Frame)) (st : State) : State :=
  {| rooms := rooms st; sockets := sockets st; clients := clients st;
     messages := messages st; sent := l |}.

(** *** Handlers run in a state monad with exceptions

    A handler that throws keeps the mutations it made before throwing.
    A handler is run from the state it starts in to its end: the answers
    of the calls it awaits are inputs ([World]), and what other listeners
    do while it is suspended is not described. *)
Definition M (A : Type) : Type := State -> Exc A * State.

Definition ret {A} (a : A) : M A := fun st => (Ret a, st).

Definition raise {A} (reason : string) : M A := fun st => (Raise reason, st).

Definition mbind {A B} (c : M A) (k : A -> M B) : M B :=
  fun st =>
    match c st with
    | (Ret a, st') => k a st'
    | (Raise r, st') => (Raise r, st')
    end.

Definition catch {A} (c : M A) (h : string -> M A) : M A :=
  fun st =>
    match c st with
    | (Ret a, st') => (Ret a, st')
    | (Raise r, st') => h r st'
    end.

Definition lift {A} (c : Exc A) : M A := fun st => (c, st).

Definition gets {A} (f : State -> A) : M A := fun st => (Ret (f st), st).

Definition modify (f : State -> State) : M unit := fun st => (Ret tt, f st).

Definition when (b : bool) (c : M unit) : M unit := if b then c else ret tt.

Declare Scope js_scope.
Delimit Scope js_scope with js.
Notation "x <- c ;; k" := (mbind c (fun x => k))
  (at level 61, c at next level, right associativity) : js_scope.
Notation "c ;; k" := (mbind c (fun _ => k))
  (at level 61, right associativity) : js_scope.
Open Scope js_scope.

(** [ws.send(JSON.stringify(frame))] *)
Definition ws_send (c : Conn) (frame : Frame) : M unit :=
  modify (fun st => set_sent (sent st ++ [(c, frame)]) st).

(** *** The storage collaborator

    [supabase] answers a query with [{ data, error }]; the promise may
    also reject.  The table is part of the state; whether the service
    answers, answers with an error, or rejects is an input of each
    handler. *)
Record PostgrestResult (A : Type) := {
  data : option A;
  error : option string
}.
Arguments data {A} _.
Arguments error {A} _.

Inductive StorageFault :=
| storage_up
| storage_error (message : string)
| storage_rejects (reason : string).

(** [.order('created_at', { ascending: false })] as a stable insertion
    sort, newest first. *)
Fixpoint insert_desc (r : MessageRow) (l : list MessageRow)
  : list MessageRow :=
  match l with
  | [] => [r]
  | x :: rest =>
      if (created_at x <? created_at r)%nat then r :: l
      else x :: insert_desc r rest
  end.

Definition order_desc (l : list MessageRow) : list MessageRow :=
  fold_right insert_desc [] l.

(** [.from('messages').select('*').eq('room_id', roomId)
      .order('created_at', { ascending: false }).limit(limit)] *)
Definition select_recent (table : list MessageRow) (roomId : string)
    (limit : nat) : list MessageRow :=
  firstn limit
    (order_desc (filter (fun r => String.eqb (room_id r) roomId) table)).

Definition await_select (fault : StorageFault) (roomId : string) (limit : nat)
  : M (PostgrestResult (list MessageRow)) :=
  match fault with
  | storage_up =>
      gets (fun st =>
        {| data := Some (select_recent (messages st) roomId limit);
           error := None |})
  | storage_error e => ret {| data := None; error := Some e |}
  | storage_rejects r => raise r
  end.

(** [.from('messages').insert(payload).select('*').single()]: the row is
    stored with the database's time stamp and returned. *)
Definition await_insert (fault : StorageFault) (db_now : Timestamp)
    (roomId userId : string) (nickname : option string) (content : string)
    (riskLevel : RiskLevel) : M (PostgrestResult MessageRow) :=
  match fault with
  | storage_up =>
      let row := {| room_id := roomId; user_id := userId;
                    row_nickname := nickname; row_content := content;
                    risk_level := riskLevel; created_at := db_now |} in
      modify (fun st => set_messages (messages st ++ [row]) st) ;;
      ret {| data := Some row; error := None |}
  | storage_error e => ret {| data := None; error := Some e |}
  | storage_rejects r => raise r
  end.

(** What a handler reads from outside while it runs. *)
Record World := {
  env : Env;                 (* classifier environment *)
  storage : StorageFault;    (* answer of the storage call *)
  db_now : Timestamp;        (* created_at given by the database *)
  now : Timestamp            (* new Date() *)
}.

Definition is_open (st : State) (c : Conn) : bool :=
  ReadyState_eqb (readyState (sockets st c)) OPEN.

(** Body of [room.forEach((member) => ...)] in [broadcastToRoom]. *)
Definition sendIfOpen (frame : Frame) (member : RoomMember) : M unit :=
  open <- gets (fun st => is_open st (ws member)) ;;
  when open (ws_send (ws member) frame).

Fixpoint forEach {A} (l : list A) (body : A -> M unit) : M unit :=
  match l with
  | [] => ret tt
  | x :: rest => body x ;; forEach rest body
  end.

Definition broadcastToRoom (roomId : string) (message : Frame) : M unit :=
  room <- gets (fun st => JsMap.get (rooms st) roomId) ;;
  match room with
  | None => ret tt
  | Some room => forEach (JsMap.values room) (sendIfOpen message)
  end.

(** [room.set(userId, member)] on the room object stored under [roomId];
    the room object is shared, so the update is visible in [this.rooms]. *)
Definition room_set (roomId userId : string) (member : RoomMember) : M unit :=
  room <- gets (fun st => JsMap.get (rooms st) roomId) ;;
  match room with
  | None => raise "TypeError: room is undefined"
  | Some room =>
      modify (fun st =>
        set_rooms (JsMap.set (rooms st) roomId (JsMap.set room userId member)) st)
  end.

(** [room.delete(userId)] on the room object stored under [roomId]. *)
Definition room_delete (roomId userId : string) (room : Room) : M unit :=
  modify (fun st =>
    set_rooms (JsMap.set (rooms st) roomId (JsMap.delete room userId)) st).

Definition handleJoin (w : World) (c : Conn) (message : ChatMessage) : M unit :=
  match msg_roomId message, msg_userId message, msg_nickname message with
  | Some (String _ _ as roomId), Some (String _ _ as userId),
    Some (String _ _ as nickname) =>
      catch
        ((* Add user to room *)
         known <- gets (fun st => JsMap.has (rooms st) roomId) ;;
         when (negb known)
           (modify (fun st =>
              set_rooms (JsMap.set (rooms st) roomId JsMap.empty) st)) ;;
         room_set roomId userId
           {| ws := c; userId := userId; nickname := nickname |} ;;
         (* Store connection metadata *)
         modify (fun st =>
           set_socket c
             {| ws_roomId := Some roomId; ws_userId := Some userId;
                ws_nickname := Some nickname;
                isAlive := isAlive (sockets st c);
                readyState := readyState (sockets st c) |} st) ;;
         (* Fetch recent messages from database *)
         res <- await_select (storage w) roomId 50 ;;
         match error res with
         | Some _ => ws_send c (ErrorFrame "Could not load message history")
         | None =>
             ws_send c (HistoryFrame
                          (match data res with
                           | Some messages => rev messages
                           | None => []
                           end))
         end ;;
         (* Broadcast join event *)
         broadcastToRoom roomId (JoinEvent userId nickname (now w)))
        (fun _ => ws_send c (ErrorFrame "Failed to join room"))
  | _, _, _ => ws_send c (ErrorFrame "Missing required fields")
  end.

Definition handleLeave (w : World) (c : Conn) (message : ChatMessage) : M unit :=
  roomId <- gets (fun st => ws_roomId (sockets st c)) ;;
  userId <- gets (fun st => ws_userId (sockets st c)) ;;
  nickname <- gets (fun st => ws_nickname (sockets st c)) ;;
  match roomId, userId with
  | Some (String _ _ as roomId), Some (String _ _ as userId) =>
      room <- gets (fun st => JsMap.get (rooms st) roomId) ;;
      match room with
      | Some room =>
          (* Remove user from room *)
          when (JsMap.has room userId)
            (room_delete roomId userId room ;;
             (* Broadcast leave event *)
             broadcastToRoom roomId (LeaveEvent userId nickname (now w)))
      | None => ret tt
      end
  | _, _ => ret tt
  end.

Definition handleChatMessage (w : World) (c : Conn) (message : ChatMessage)
  : M unit :=
  roomId <- gets (fun st => ws_roomId (sockets st c)) ;;
  userId <- gets (fun st => ws_userId (sockets st c)) ;;
  nickname <- gets (fun st => ws_nickname (sockets st c)) ;;
  match msg_content message, roomId, userId with
  | Some (String _ _ as content), Some (String _ _ as roomId),
    Some (String _ _ as userId) =>
      (* Detect crisis in message *)
      crisisResult <- lift (detectCrisis (env w) content) ;;
      (* Save message to database with risk level AND nickname *)
      res <- await_insert (storage w) (db_now w) roomId userId nickname
               content (riskLevel crisisResult) ;;
      match error res with
      | Some _ => ws_send c (ErrorFrame "Failed to save message")
      | None =>
          match data res with
          | None => raise "TypeError: savedMessage is null"
          | Some savedMessage =>
              (* Broadcast message to room *)
              broadcastToRoom roomId
                (ChatEvent (user_id savedMessage)
                           (or_else (row_nickname savedMessage) nickname)
                           (row_content savedMessage)
                           (created_at savedMessage)
                           (risk_level savedMessage)) ;;
              (* Send crisis alert if detected *)
              when (isCrisis crisisResult
                    && negb (RiskLevel_eqb (riskLevel crisisResult) none))
                (ws_send c
                   (CrisisAlert (riskLevel crisisResult)
                      (getCrisisResourcesMessage (riskLevel crisisResult))
                      (now w)))
          end
      end
  | _, _, _ => ws_send c (ErrorFrame "Missing required fields")
  end.

Definition handleDisconnect (c : Conn) : M unit :=
  roomId <- gets (fun st => ws_roomId (sockets st c)) ;;
  userId <- gets (fun st => ws_userId (sockets st c)) ;;
  match roomId, userId with
  | Some (String _ _ as roomId), Some (String _ _ as userId) =>
      room <- gets (fun st => JsMap.get (rooms st) roomId) ;;
      match room with
      | Some room =>
          when (JsMap.has room userId)
            (* Only remove if the socket matches *)
            match JsMap.get room userId with
            | Some member =>
                when (Nat.eqb (ws member) c) (room_delete roomId userId room)
            | None => ret tt
            end
      | None => ret tt
      end
  | _, _ => ret tt
  end.

Definition handleMessage (w : World) (c : Conn) (message : ChatMessage)
  : M unit :=
  match msg_type message with
  | type_join => handleJoin w c message
  | type_leave => handleLeave w c message
  | type_chat => handleChatMessage w c message
  | _ => ws_send c (ErrorFrame "Unknown message type")
  end.

(** [ws.on('message', ...)]: [parsed] is the outcome of [JSON.parse]. *)
Definition on_message (w : World) (c : Conn) (parsed : Exc ChatMessage)
  : M unit :=
  catch
    (message <- lift parsed ;; handleMessage w c message)
    (fun _ =>
       (* Send error but don't close connection *)
       catch (ws_send c (ErrorFrame "Invalid message format"))
             (fun _ => ret tt)).

(** [ws.on('pong', ...)] *)
Definition on_pong (c : Conn) : M unit :=
  modify (fun st =>
    set_socket c
      {| ws_roomId := ws_roomId (sockets st c);
         ws_userId := ws_userId (sockets st c);
         ws_nickname := ws_nickname (sockets st c);
         isAlive := true;
         readyState := readyState (sockets st c) |} st).

(** The transport of [c] is gone: the library marks the socket closed,
    drops it from [wss.clients] and emits ['close'], whose listener is
    [handleDisconnect]. *)
Definition on_close (c : Conn) : M unit :=
  modify (fun st =>
    set_clients (filter (fun c' => negb (Nat.eqb c' c)) (clients st))
      (set_socket c
         {| ws_roomId := ws_roomId (sockets st c);
            ws_userId := ws_userId (sockets st c);
            ws_nickname := ws_nickname (sockets st c);
            isAlive := isAlive (sockets st c);
            readyState := CLOSED |} st)) ;;
  handleDisconnect c.

(** [handleConnection]: a new socket is tracked and marked alive. *)
Definition handleConnection (c : Conn) : M unit :=
  modify (fun st =>
    set_clients (clients st ++ [c])
      (set_socket c
         {| ws_roomId := ws_roomId (sockets st c);
            ws_userId := ws_userId (sockets st c);
            ws_nickname := ws_nickname (sockets st c);
            isAlive := true;
            readyState := OPEN |} st)).

(** One client of the heartbeat loop: [ws.terminate()] closes the
    transport at once; otherwise the socket is marked and pinged. *)
Definition heartbeatClient (c : Conn) : M unit :=
  alive <- gets (fun st => isAlive (sockets st c)) ;;
  if negb alive then on_close c
  else
    modify (fun st =>
      set_socket c
        {| ws_roomId := ws_roomId (sockets st c);
           ws_userId := ws_userId (sockets st c);
           ws_nickname := ws_nickname (sockets st c);
           isAlive := false;
           readyState := readyState (sockets st c) |} st).

(** One tick of the 30 s interval. *)
Definition heartbeat : M unit :=
  cs <- gets clients ;;
  forEach cs heartbeatClient.

(** Final state of a handler run. *)
Definition exec {A} (c : M A) (st : State) : State := snd (c st).

(** *** The server as a transition system *)

(** What can happen to the server: a socket connects, a frame arrives
    (with the outcome of its [JSON.parse] and what the handler reads from
    outside), a pong arrives, a transport closes, the heartbeat ticks. *)
Inductive Event :=
| Connected (c : Conn)
| Received (w : World) (c : Conn) (parsed : Exc ChatMessage)
| Pong (c : Conn)
| Closed (c : Conn)
| Tick.

Definition listener (e : Event) : M unit :=
  match e with
  | Connected c => handleConnection c
  | Received w c parsed => on_message w c parsed
  | Pong c => on_pong c
  | Closed c => on_close c
  | Tick => heartbeat
  end.

(** The states the server can be in. *)
Inductive reachable : State -> Prop :=
| reachable_initial : reachable initial
| reachable_step st e :
    reachable st -> reachable (exec (listener e) st).

Definition run_events (es : list Event) (st : State) : State :=
  fold_left (fun s e => exec (listener e) s) es st.

(** *** Vocabulary of the properties *)

(** The membership stored for [(roomId, userId)], if any. *)
Definition lookup (st : State) (roomId userId : string) : option RoomMember :=
  match JsMap.get (rooms st) roomId with
  | Some room => JsMap.get room userId
  | None => None
  end.

(** Every entry of every room: room id, key in the room, member. *)
Definition memberships (st : State) : list (string * string * RoomMember) :=
  flat_map (fun entry => map (fun kv => (fst entry, fst kv, snd kv)) (snd entry))
           (rooms st).

(** Number of memberships held for [(roomId, userId)]. *)
Definition membership_count (st : State) (roomId uid : string) : nat :=
  length (filter (fun e => String.eqb (fst (fst e)) roomId
                           && String.eqb (snd (fst e)) uid)
                 (memberships st)).

(** Keys are unique in [this.rooms] and in every room. *)
Definition wf_state (st : State) : Prop :=
  JsMap.wf (rooms st) /\
  forall roomId room, In (roomId, room) (rooms st) -> JsMap.wf room.

(** [message] carries the three fields a join needs. *)
Definition valid_join (message : ChatMessage) (roomId uid nick : string)
  : Prop :=
  msg_roomId message = Some roomId /\ roomId <> "" /\
  msg_userId message = Some uid /\ uid <> "" /\
  msg_nickname message = Some nick /\ nick <> "".

(** The sockets a broadcast to [roomId] writes to, in order. *)
Definition recipients (st : State) (roomId : string) : list Conn :=
  match JsMap.get (rooms st) roomId with
  | Some room => filter (is_open st) (map ws (JsMap.values room))
  | None => []
  end.

(** The state once the synchronous part of a valid join has run: the
    membership is stored and the socket carries the binding. *)
Definition registered (st : State) (c : Conn) (roomId uid nick : string)
  : State :=
  let room := match JsMap.get (rooms st) roomId with
              | Some room => room
              | None => JsMap.empty
              end in
  set_socket c
    {| ws_roomId := Some roomId; ws_userId := Some uid;
       ws_nickname := Some nick;
       isAlive := isAlive (sockets st c);
       readyState := readyState (sockets st c) |}
    (set_rooms
       (JsMap.set (rooms st) roomId
          (JsMap.set room uid {| ws := c; userId := uid; nickname := nick |}))
       st).

(** The state once [room.delete(userId)] has run on room [roomId]. *)
Definition removed (st : State) (roomId uid : string) : State :=
  match JsMap.get (rooms st) roomId with
  | Some room =>
      set_rooms (JsMap.set (rooms st) roomId (JsMap.delete room uid)) st
  | None => st
  end.

(** Newest first. *)
Definition descending (l : list MessageRow) : Prop :=
  StronglySorted (fun a b => created_at b <= created_at a)%nat l.

(** The rows of the table that belong to [roomId]. *)
Definition room_rows (table : list MessageRow) (roomId : string)
  : list MessageRow :=
  filter (fun r => String.eqb (room_id r) roomId) table.

(** [frame] written to each socket of [cs]. *)
Definition deliveries (cs : list Conn) (frame : Frame) : list (Conn * Frame) :=
  map (fun c => (c, frame)) cs.

(** The [ws.send] calls made between [st] and [st']. *)
Definition new_sends (st st' : State) : list (Conn * Frame) :=
  skipn (length (sent st)) (sent st').

Definition is_chat_event (f : Frame) : bool :=
  match f with ChatEvent _ _ _ _ _ => true | _ => false end.

Definition is_leave_event (f : Frame) : bool :=
  match f with LeaveEvent _ _ _ => true | _ => false end.

Definition is_history (f : Frame) : bool :=
  match f with HistoryFrame _ => true | _ => false end.

Definition is_crisis_alert (f : Frame) : bool :=
  match f with CrisisAlert _ _ _ => true | _ => false end.

(** Oldest first. *)
Definition ascending (l : list MessageRow) : Prop :=
  StronglySorted (fun a b => created_at a <= created_at b)%nat l.

(** The connection is bound to [(roomId, userId, nickname)]. *)
Definition bound (st : State) (c : Conn) (roomId uid nick : string) : Prop :=
  ws_roomId (sockets st c) = Some roomId /\ roomId <> "" /\
  ws_userId (sockets st c) = Some uid /\ uid <> "" /\
  ws_nickname (sockets st c) = Some nick.

(** A join frame, a leave frame and a chat frame. *)
Definition join_frame (roomId uid nick : string) : ChatMessage :=
  {| msg_type := type_join; msg_roomId := Some roomId;
     msg_userId := Some uid; msg_nickname := Some nick;
     msg_content := None |}.

Definition leave_frame : ChatMessage :=
  {| msg_type := type_leave; msg_roomId := None; msg_userId := None;
     msg_nickname := None; msg_content := None |}.

Definition chat_frame (text : string) : ChatMessage :=
  {| msg_type := type_chat; msg_roomId := None; msg_userId := None;
     msg_nickname := None; msg_content := Some text |}.

End ChatServer.

(* ================================================================= *)
(** ** Worked scenarios *)

Module Scenario.
Import Js CrisisDetection ChatServer.

(** No token configured: the classifier runs on keywords only. *)
Definition keyword_env : Env :=
  {| toLowerCase := asciiLowerCase; apiToken := None;
     fetch := fun _ => Raise "fetch failed" |}.

(** A configured service that answers with one strong emotion. *)
Definition sad_env : Env :=
  {| toLowerCase := asciiLowerCase; apiToken := Some "hf_token";
     fetch := fun _ =>
       Ret {| ok := true; statusText := "OK";
              json := Ret [[ {| label := "sadness"; score := (9 # 10)%Q |} ]] |} |}.

(** A configured service that reports strong surprise and anger at
    exactly 0.5. *)
Definition startled_env : Env :=
  {| toLowerCase := asciiLowerCase; apiToken := Some "hf_token";
     fetch := fun _ =>
       Ret {| ok := true; statusText := "OK";
              json := Ret [[ {| label := "surprise"; score := (9 # 10)%Q |};
                             {| label := "anger"; score := (1 # 2)%Q |} ]] |} |}.


Definition world (e : Env) (s : StorageFault) : World :=
  {| env := e; storage := s; db_now := 7; now := 9 |}.

Definition up : World := world keyword_env storage_up.
Definition down : World := world keyword_env (storage_error "connection refused").

(** Two sockets connect and join room r1 as u1 and u2. *)
Definition two_members : State :=
  run_events
    [ Connected 1; Connected 2;
      Received up 1 (Ret (join_frame "r1" "u1" "Alice"));
      Received up 2 (Ret (join_frame "r1" "u2" "Bob")) ]
    initial.

(** Socket 1 joins r1 and then, on the same socket, r2. *)
Definition rejoined_elsewhere : State :=
  run_events
    [ Connected 1;
      Received up 1 (Ret (join_frame "r1" "u1" "Alice"));
      Received up 1 (Ret (join_frame "r2" "u1" "Alice")) ]
    initial.

(** u1 reconnects on socket 3 while socket 1 is still registered. *)
Definition reconnected : State :=
  run_events
    [ Connected 3; Received up 3 (Ret (join_frame "r1" "u1" "Alice")) ]
    two_members.

(** Two heartbeat ticks; only socket 2 answers the first probe. *)
Definition silent_peer_dropped : State :=
  run_events [ Tick; Pong 2; Tick ] two_members.

End Scenario.

(* ================================================================= *)
(** ** The classifier's verdict in closed form *)

Module Verdict.
Import Js CrisisDetection.

(** Some phrase of the tier occurs in the lower-cased text. *)
Definition tier_matches (lowerMessage : string) (level : RiskLevel) : bool :=
  existsb (fun keyword => includes keyword lowerMessage) (CRISIS_KEYWORDS level).

(** The most severe tier with a phrase in the text, [none] without any. *)
Definition highest_matching_tier (lowerMessage : string) : RiskLevel :=
  match find (tier_matches lowerMessage) levels with
  | Some level => level
  | None => none
  end.

(** The phrases in the order the scan visits them. *)
Definition all_keywords : list string := flat_map CRISIS_KEYWORDS levels.

(** The level one emotion stands for: a high-risk emotion above 0.7 is
    [high], above 0.5 [medium]; a medium-risk emotion above 0.6 is [low]. *)
Definition emotion_tier (emotion : EmotionScore) : RiskLevel :=
  if array_includes HIGH_RISK_EMOTIONS (label emotion) then
    if Qgtb (score emotion) (7 # 10)%Q then high
    else if Qgtb (score emotion) (1 # 2)%Q then medium
    else none
  else if array_includes MEDIUM_RISK_EMOTIONS (label emotion)
          && Qgtb (score emotion) (6 # 10)%Q then low
  else none.

(** The more severe of two levels, as the code compares them. *)
Definition higher (a b : RiskLevel) : RiskLevel :=
  if (levelIndex b >? levelIndex a)%Z then b else a.

(** The most severe level among the emotions. *)
Definition emotions_tier (emotions : list EmotionScore) : RiskLevel :=
  fold_left (fun acc e => higher acc (emotion_tier e)) emotions none.

(** The largest score, 0 for none. *)
Definition max_score (emotions : list EmotionScore) : Q :=
  fold_left (fun acc e => if Qgtb (score e) acc then score e else acc)
            emotions 0%Q.

End Verdict.

(* ================================================================= *)
(** ** Vocabulary for the server's logs and registry *)

Module Protocol.
Import Js CrisisDetection ChatServer.

(** The frames [broadcastToRoom] is called with. *)
Definition is_broadcast_kind (f : Frame) : bool :=
  match f with
  | JoinEvent _ _ _ | LeaveEvent _ _ _ | ChatEvent _ _ _ _ _ => true
  | _ => false
  end.

(** [row] is the stored form of the chat event [f]. *)
Definition stored_as (row : MessageRow) (f : Frame) : Prop :=
  match f with
  | ChatEvent u n text t lvl =>
      user_id row = u /\ row_nickname row = n /\ row_content row = text /\
      created_at row = t /\ risk_level row = lvl
  | _ => False
  end.

(** [l'] is [l] with entries added at the end. *)
Definition extends {A} (l l' : list A) : Prop :=
  exists tail, l' = (l ++ tail)%list.

(** What one listener run for socket [c] may add to the logs: frames
    to [c] itself or broadcast frames, and rows; a chat event only
    together with its row. *)
Definition logs_ok (c : Conn) (st st' : State) : Prop :=
  exists l rows,
    sent st' = (sent st ++ l)%list /\
    messages st' = (messages st ++ rows)%list /\
    (forall x, In x l -> fst x = c \/ is_broadcast_kind (snd x) = true) /\
    (forall c' f, In (c', f) l -> is_chat_event f = true ->
       exists row, In row rows /\ stored_as row f).

(** Every entry of every room is stored under its member's user id. *)
Definition keyed_by_userId (st : State) : Prop :=
  forall roomId room uid member,
    In (roomId, room) (rooms st) -> In (uid, member) room ->
    userId member = uid.

(** The three fields of a socket are set together: all absent, or all
    present and non-empty. *)
Definition binding_consistent (st : State) (c : Conn) : Prop :=
  (ws_roomId (sockets st c) = None /\ ws_userId (sockets st c) = None /\
   ws_nickname (sockets st c) = None) \/
  exists roomId uid nick,
    bound st c roomId uid nick /\ nick <> "".

(** The socket as the heartbeat leaves it when it was alive. *)
Definition probed (s : Socket) : Socket :=
  {| ws_roomId := ws_roomId s; ws_userId := ws_userId s;
     ws_nickname := ws_nickname s; isAlive := false;
     readyState := readyState s |}.

(** The socket as [terminate] leaves it. *)
Definition terminated (s : Socket) : Socket :=
  {| ws_roomId := ws_roomId s; ws_userId := ws_userId s;
     ws_nickname := ws_nickname s; isAlive := isAlive s;
     readyState := CLOSED |}.

End Protocol.

(* ================================================================= *)
(** ** Facts about the classifier *)

Section ClassifierFacts.
Import Js CrisisDetection.

Lemma levelIndex_range (l : RiskLevel) : (0 <= levelIndex l <= 4)%Z.
Proof. destruct l; vm_compute; intuition discriminate. Qed.

Lemma levelIndex_top (l : RiskLevel) : (4 <= levelIndex l)%Z -> l = critical.
Proof. destruct l; vm_compute; intro H; try reflexivity; exfalso; apply H; reflexivity. Qed.

(** One keyword test never lowers the level. *)
Lemma scanKeyword_mono lowerMessage level acc keyword :
  (levelIndex (scan_highest acc)
   <= levelIndex (scan_highest (scanKeyword lowerMessage level acc keyword)))%Z.
Proof.
  unfold scanKeyword.
  destruct (includes keyword lowerMessage); simpl; [|lia].
  destruct (Z.gtb_spec (levelIndex level) (levelIndex (scan_highest acc))); lia.
Qed.

(** A keyword that matches lifts the level to at least its own tier. *)
Lemma scanKeyword_hit lowerMessage level acc keyword :
  includes keyword lowerMessage = true ->
  (levelIndex level
   <= levelIndex (scan_highest (scanKeyword lowerMessage level acc keyword)))%Z.
Proof.
  intro Hin. unfold scanKeyword. rewrite Hin. simpl.
  destruct (Z.gtb_spec (levelIndex level) (levelIndex (scan_highest acc))); lia.
Qed.

Lemma scanKeywords_mono lowerMessage level keywords : forall acc,
  (levelIndex (scan_highest acc)
   <= levelIndex (scan_highest
        (fold_left (scanKeyword lowerMessage level) keywords acc)))%Z.
Proof.
  induction keywords as [|k ks IH]; intro acc; simpl; [lia|].
  etransitivity; [apply (scanKeyword_mono lowerMessage level acc k)|apply IH].
Qed.

Lemma scanKeywords_hit lowerMessage level keywords keyword : forall acc,
  In keyword keywords ->
  includes keyword lowerMessage = true ->
  (levelIndex level
   <= levelIndex (scan_highest
        (fold_left (scanKeyword lowerMessage level) keywords acc)))%Z.
Proof.
  induction keywords as [|k ks IH]; intros acc Hk Hin; simpl; [destruct Hk|].
  destruct Hk as [->|Hk].
  - etransitivity; [apply (scanKeyword_hit lowerMessage level acc keyword Hin)|].
    apply scanKeywords_mono.
  - apply IH; assumption.
Qed.

Lemma scanLevels_mono lowerMessage ls : forall acc,
  (levelIndex (scan_highest acc)
   <= levelIndex (scan_highest (fold_left (scanLevel lowerMessage) ls acc)))%Z.
Proof.
  induction ls as [|l ls IH]; intro acc; simpl; [lia|].
  etransitivity; [|apply IH]. apply scanKeywords_mono.
Qed.

Lemma scanLevels_hit lowerMessage ls level keyword : forall acc,
  In level ls ->
  In keyword (CRISIS_KEYWORDS level) ->
  includes keyword lowerMessage = true ->
  (levelIndex level
   <= levelIndex (scan_highest (fold_left (scanLevel lowerMessage) ls acc)))%Z.
Proof.
  induction ls as [|l ls IH]; intros acc Hl Hk Hin; simpl; [destruct Hl|].
  destruct Hl as [->|Hl].
  - etransitivity; [|apply scanLevels_mono].
    unfold scanLevel. apply scanKeywords_hit with keyword; assumption.
  - apply IH; assumption.
Qed.

(** The keyword verdict is at least the tier of every phrase found. *)
Lemma analyzeWithKeywords_lower_bound env message level keyword :
  In keyword (CRISIS_KEYWORDS level) ->
  includes keyword (toLowerCase env message) = true ->
  (levelIndex level <= levelIndex (riskLevel (analyzeWithKeywords env message)))%Z.
Proof.
  intros Hk Hin. unfold analyzeWithKeywords. cbn [riskLevel].
  apply scanLevels_hit with keyword; try assumption.
  destruct level; simpl in *; tauto.
Qed.

(** The classifier never throws: every failure of the remote call is
    turned into [null] inside [analyzeWithHuggingFace]. *)
Lemma analyzeWithHuggingFace_total env message :
  exists r, analyzeWithHuggingFace env message = Ret r.
Proof.
  unfold analyzeWithHuggingFace.
  destruct (truthy (apiToken env)); simpl; [|eauto].
  destruct (fetch env message) as [response|]; simpl; [|eauto].
  destruct (ok response); simpl; [|eauto].
  destruct (json response) as [result|]; simpl; eauto.
Qed.

Lemma detectCrisis_total env message :
  exists verdict, detectCrisis env message = Ret verdict.
Proof.
  unfold detectCrisis.
  destruct (analyzeWithHuggingFace_total env message) as [r ->]. simpl.
  destruct r as [[|e es]|]; eauto.
Qed.

(** In either path [isCrisis] is [riskLevel !== 'none']. *)
Lemma detectCrisis_isCrisis env message verdict :
  detectCrisis env message = Ret verdict ->
  isCrisis verdict = negb (RiskLevel_eqb (riskLevel verdict) none).
Proof.
  unfold detectCrisis.
  destruct (analyzeWithHuggingFace_total env message) as [r ->]. simpl.
  destruct r as [[|e es]|]; intro H; inversion H; reflexivity.
Qed.

Lemma RiskLevel_eqb_eq a b : RiskLevel_eqb a b = true <-> a = b.
Proof. destruct a, b; simpl; split; intro H; congruence. Qed.

(** Lower-casing byte by byte commutes with concatenation, so a phrase
    written in any mix of upper and lower case is found after
    [asciiLowerCase]. *)
Lemma asciiLowerCase_app a b :
  asciiLowerCase (a ++ b) = asciiLowerCase a ++ asciiLowerCase b.
Proof. induction a as [|c a IH]; simpl; [reflexivity|now rewrite IH]. Qed.

Lemma prefix_app a b : String.prefix a (a ++ b) = true.
Proof.
  induction a as [|c a IH]; simpl; [now destruct b|].
  destruct (ascii_dec c c) as [_|n]; [exact IH|now destruct n].
Qed.

Lemma includes_prefix needle haystack :
  String.prefix needle haystack = true -> includes needle haystack = true.
Proof. intro H. destruct haystack; cbn [includes]; rewrite H; reflexivity. Qed.

Lemma includes_app needle before after :
  includes needle (before ++ needle ++ after) = true.
Proof.
  induction before as [|c before IH].
  - change ("" ++ needle ++ after) with (needle ++ after).
    apply includes_prefix, prefix_app.
  - change (String c before ++ needle ++ after)
      with (String c (before ++ needle ++ after)).
    cbn [includes]. rewrite IH. apply orb_true_r.
Qed.

Lemma includes_any_case before written after :
  includes (asciiLowerCase written)
           (asciiLowerCase (before ++ written ++ after)) = true.
Proof. rewrite !asciiLowerCase_app. apply includes_app. Qed.

(** With a lower-casing that maps A-Z to a-z, a critical phrase written
    in any letter case anywhere in the text makes the keyword verdict
    [critical]. *)
Lemma critical_phrase_any_ascii_case env before written after :
  (forall s, toLowerCase env s = asciiLowerCase s) ->
  In (asciiLowerCase written) (CRISIS_KEYWORDS critical) ->
  riskLevel (analyzeWithKeywords env (before ++ written ++ after)) = critical.
Proof.
  intros Hlow Hk. apply levelIndex_top.
  apply (analyzeWithKeywords_lower_bound env (before ++ written ++ after)
           critical (asciiLowerCase written) Hk).
  rewrite Hlow. apply includes_any_case.
Qed.

End ClassifierFacts.

Section ClassifierProperties.
Import Js CrisisDetection.

(** C4.  A text whose lower-cased form contains a phrase of the critical
    list is classified [critical]: by the keyword scan on its own, and by
    [detectCrisis] whatever the emotion service answered (no answer, or
    any list of emotion scores). *)
Theorem critical_phrase_is_critical env message keyword :
  In keyword (CRISIS_KEYWORDS critical) ->
  includes keyword (toLowerCase env message) = true ->
  riskLevel (analyzeWithKeywords env message) = critical /\
  exists verdict,
    detectCrisis env message = Ret verdict /\ riskLevel verdict = critical.
Proof.
  intros Hk Hin.
  assert (Hkw : riskLevel (analyzeWithKeywords env message) = critical).
  { apply levelIndex_top.
    apply (analyzeWithKeywords_lower_bound env message critical keyword Hk Hin). }
  split; [exact Hkw|].
  unfold detectCrisis.
  destruct (analyzeWithHuggingFace_total env message) as [r ->].
  cbn [bind].
  destruct r as [[|e es]|]; try (eexists; split; [reflexivity|exact Hkw]).
  eexists; split; [reflexivity|]. cbn [riskLevel]. rewrite Hkw.
  match goal with
  | |- (if (?k >? ?a)%Z then _ else ?ai) = _ =>
      destruct (Z.gtb_spec k a) as [_|Hle]; [reflexivity|]
  end.
  apply levelIndex_top. exact Hle.
Qed.

Lemma critical_phrase_is_critical_witness :
  riskLevel (analyzeWithKeywords Scenario.sad_env "I WANT TO DIE") = critical /\
  exists verdict,
    detectCrisis Scenario.sad_env "I WANT TO DIE" = Ret verdict /\
    riskLevel verdict = critical.
Proof.
  apply (critical_phrase_is_critical Scenario.sad_env "I WANT TO DIE" "want to die").
  - simpl. tauto.
  - vm_compute. reflexivity.
Defined.



End ClassifierProperties.

(* ================================================================= *)
(** ** Facts about [Map] *)

Section JsMapFacts.
Context {V : Type}.
Implicit Types (m : JsMap.t V) (k : string) (v : V).

Lemma get_set_eq m k v : JsMap.get (JsMap.set m k v) k = Some v.
Proof.
  induction m as [|[k' v'] m IH]; simpl.
  - now rewrite String.eqb_refl.
  - destruct (String.eqb k' k) eqn:E; simpl.
    + now rewrite String.eqb_refl.
    + now rewrite E.
Qed.

Lemma get_set_ne m k k' v :
  k' <> k -> JsMap.get (JsMap.set m k v) k' = JsMap.get m k'.
Proof.
  intro Hne. induction m as [|[k0 v0] m IH]; simpl.
  - apply String.eqb_neq in Hne. rewrite String.eqb_sym. now rewrite Hne.
  - destruct (String.eqb k0 k) eqn:E; simpl.
    + apply String.eqb_eq in E. subst k0.
      assert (String.eqb k k' = false) as ->; [|reflexivity].
      apply String.eqb_neq. congruence.
    + now rewrite IH.
Qed.

Lemma set_set m k v v' :
  JsMap.set (JsMap.set m k v) k v' = JsMap.set m k v'.
Proof.
  induction m as [|[k0 v0] m IH]; simpl.
  - now rewrite String.eqb_refl.
  - destruct (String.eqb k0 k) eqn:E; simpl.
    + now rewrite String.eqb_refl.
    + now rewrite E, IH.
Qed.

Lemma get_In m k v : JsMap.get m k = Some v -> In (k, v) m.
Proof.
  induction m as [|[k0 v0] m IH]; simpl; [discriminate|].
  destruct (String.eqb k0 k) eqn:E.
  - apply String.eqb_eq in E. intro H. inversion H. subst. now left.
  - intro H. right. now apply IH.
Qed.

Lemma In_keys m k v : In (k, v) m -> In k (JsMap.keys m).
Proof. intro H. apply (in_map fst) in H. exact H. Qed.

Lemma In_get m k v : JsMap.wf m -> In (k, v) m -> JsMap.get m k = Some v.
Proof.
  unfold JsMap.wf. induction m as [|[k0 v0] m IH]; simpl; [tauto|].
  intros Hnd [Heq|Hin].
  - inversion Heq. subst. now rewrite String.eqb_refl.
  - inversion Hnd as [|? ? Hnotin Hnd']. subst.
    destruct (String.eqb k0 k) eqn:E.
    + apply String.eqb_eq in E. subst. exfalso. apply Hnotin.
      now apply In_keys with v.
    + now apply IH.
Qed.

Lemma In_set m k v k' v' :
  In (k', v') (JsMap.set m k v) -> (k', v') = (k, v) \/ In (k', v') m.
Proof.
  induction m as [|[k0 v0] m IH]; simpl.
  - intros [H|[]]. now left.
  - destruct (String.eqb k0 k); simpl; intros [H|H]; auto.
    destruct (IH H); auto.
Qed.

Lemma keys_set m k v :
  JsMap.keys (JsMap.set m k v)
  = if JsMap.has m k then JsMap.keys m else (JsMap.keys m ++ [k])%list.
Proof.
  unfold JsMap.has, JsMap.keys.
  induction m as [|[k0 v0] m IH]; simpl; [reflexivity|].
  destruct (String.eqb k0 k) eqn:E; simpl.
  - apply String.eqb_eq in E. now subst.
  - rewrite IH. now destruct (JsMap.get m k).
Qed.

Lemma has_false_not_key m k : JsMap.has m k = false -> ~ In k (JsMap.keys m).
Proof.
  unfold JsMap.has, JsMap.keys.
  induction m as [|[k0 v0] m IH]; simpl; [tauto|].
  destruct (String.eqb k0 k) eqn:E; [discriminate|].
  intros H [Heq|Hin]; [|now apply IH].
  apply String.eqb_neq in E. now apply E.
Qed.

Lemma wf_set m k v : JsMap.wf m -> JsMap.wf (JsMap.set m k v).
Proof.
  unfold JsMap.wf. intro Hnd. rewrite keys_set.
  destruct (JsMap.has m k) eqn:E; [assumption|].
  apply NoDup_app; [assumption|repeat constructor; simpl; tauto|].
  intros x Hx [Heq|[]]. subst x. now apply (has_false_not_key m k).
Qed.

Lemma In_delete m k x : In x (JsMap.delete m k) -> In x m.
Proof.
  induction m as [|[k0 v0] m IH]; simpl; [tauto|].
  destruct (String.eqb k0 k); simpl; intuition.
Qed.

Lemma wf_delete m k : JsMap.wf m -> JsMap.wf (JsMap.delete m k).
Proof.
  unfold JsMap.wf, JsMap.keys. induction m as [|[k0 v0] m IH]; simpl; [tauto|].
  intro Hnd. inversion Hnd as [|? ? Hnotin Hnd']. subst.
  destruct (String.eqb k0 k); simpl; [assumption|].
  constructor; [|now apply IH].
  intro Hin. apply Hnotin. apply in_map_iff in Hin.
  destruct Hin as [[k1 v1] [Hk Hin]]. simpl in Hk. subst k1.
  apply In_delete in Hin. now apply In_keys with v1.
Qed.

Lemma get_delete_ne m k k' :
  k' <> k -> JsMap.get (JsMap.delete m k) k' = JsMap.get m k'.
Proof.
  intro Hne. induction m as [|[k0 v0] m IH]; simpl; [reflexivity|].
  destruct (String.eqb k0 k) eqn:E; simpl.
  - apply String.eqb_eq in E. subst k0.
    assert (String.eqb k k' = false) as ->; [|reflexivity].
    apply String.eqb_neq. congruence.
  - now rewrite IH.
Qed.

Lemma get_delete_eq m k : JsMap.wf m -> JsMap.get (JsMap.delete m k) k = None.
Proof.
  unfold JsMap.wf. induction m as [|[k0 v0] m IH]; simpl; [reflexivity|].
  intro Hnd. inversion Hnd as [|? ? Hnotin Hnd']. subst.
  destruct (String.eqb k0 k) eqn:E; simpl.
  - apply String.eqb_eq in E. subst k0.
    destruct (JsMap.get m k) eqn:G; [|reflexivity].
    exfalso. apply Hnotin. apply get_In in G. now apply In_keys with v.
  - rewrite E. now apply IH.
Qed.

Lemma get_None_not_In m k v : JsMap.get m k = None -> ~ In (k, v) m.
Proof.
  induction m as [|[k0 v0] m IH]; simpl; [tauto|].
  destruct (String.eqb k0 k) eqn:E; [discriminate|].
  intros H [Heq|Hin]; [|now apply IH].
  inversion Heq. subst. now rewrite String.eqb_refl in E.
Qed.

(** With unique keys, exactly one entry carries a key that is present. *)
Lemma count_key m k :
  JsMap.wf m ->
  length (filter (fun kv => String.eqb (fst kv) k) m)
  = if JsMap.has m k then 1 else 0.
Proof.
  unfold JsMap.wf, JsMap.has.
  induction m as [|[k0 v0] m IH]; simpl; [reflexivity|].
  intro Hnd. inversion Hnd as [|? ? Hnotin Hnd']. subst.
  destruct (String.eqb k0 k) eqn:E; simpl.
  - apply String.eqb_eq in E. subst k0. rewrite (IH Hnd').
    destruct (JsMap.get m k) eqn:G; [|reflexivity].
    exfalso. apply Hnotin. apply get_In in G. now apply In_keys with v.
  - now apply IH.
Qed.

End JsMapFacts.

(* ================================================================= *)
(** ** Facts about the handlers *)

Import Js CrisisDetection ChatServer.

(** Runs the monadic steps of a handler applied to a state. *)
Ltac run :=
  unfold mbind, gets, modify, when, ret, raise, lift, catch;
  cbn -[broadcastToRoom JsMap.set JsMap.get JsMap.delete select_recent
        recipients detectCrisis getCrisisResourcesMessage].

Section HandlerFacts.

Lemma set_sent_id st : set_sent (sent st) st = st.
Proof. destruct st; reflexivity. Qed.

Lemma new_sends_app st st' l :
  sent st' = (sent st ++ l)%list -> new_sends st st' = l.
Proof.
  intro H. unfold new_sends. rewrite H.
  rewrite skipn_app, skipn_all, Nat.sub_diag. reflexivity.
Qed.

Lemma new_sends_same st st' : sent st' = sent st -> new_sends st st' = [].
Proof.
  intro H. apply new_sends_app. rewrite app_nil_r. exact H.
Qed.

Lemma In_deliveries cs frame c f :
  In (c, f) (deliveries cs frame) <-> In c cs /\ f = frame.
Proof.
  unfold deliveries. rewrite in_map_iff. split.
  - intros [x [Hx Hin]]. inversion Hx. subst. auto.
  - intros [Hin ->]. exists c. auto.
Qed.

(** The loop of [broadcastToRoom] writes the frame to the open sockets
    of the room, in the order of the room's entries, and to no other. *)
Lemma forEach_sendIfOpen frame l : forall st,
  forEach l (sendIfOpen frame) st
  = (Ret tt,
     set_sent (sent st ++ deliveries (filter (is_open st) (map ws l)) frame) st).
Proof.
  induction l as [|m l IH]; intro st.
  - simpl. rewrite app_nil_r, set_sent_id. reflexivity.
  - simpl. unfold mbind at 1. unfold sendIfOpen at 1.
    unfold mbind at 1. unfold gets at 1.
    destruct (is_open st (ws m)) eqn:E; simpl.
    + rewrite IH. unfold set_sent; simpl. rewrite <- app_assoc. reflexivity.
    + apply IH.
Qed.

Lemma broadcastToRoom_spec roomId frame st :
  broadcastToRoom roomId frame st
  = (Ret tt, set_sent (sent st ++ deliveries (recipients st roomId) frame) st).
Proof.
  unfold broadcastToRoom, recipients, mbind, gets.
  destruct (JsMap.get (rooms st) roomId) as [room|].
  - apply forEach_sendIfOpen.
  - simpl. rewrite app_nil_r, set_sent_id. reflexivity.
Qed.

(** A join frame with its three fields present. *)
Lemma handleJoin_valid w c message roomId uid nick st :
  msg_roomId message = Some roomId -> roomId <> "" ->
  msg_userId message = Some uid -> uid <> "" ->
  msg_nickname message = Some nick -> nick <> "" ->
  let st1 := registered st c roomId uid nick in
  handleJoin w c message st =
  (Ret tt,
   match storage w with
   | storage_up =>
       set_sent
         (sent st ++
          (c, HistoryFrame (rev (select_recent (messages st) roomId 50)))
          :: deliveries (recipients st1 roomId) (JoinEvent uid nick (now w)))
         st1
   | storage_error _ =>
       set_sent
         (sent st ++
          (c, ErrorFrame "Could not load message history")
          :: deliveries (recipients st1 roomId) (JoinEvent uid nick (now w)))
         st1
   | storage_rejects _ =>
       set_sent (sent st ++ [(c, ErrorFrame "Failed to join room")]) st1
   end).
Proof.
  intros Hr Hr0 Hu Hu0 Hn Hn0 st1. unfold handleJoin.
  rewrite Hr, Hu, Hn.
  destruct roomId as [|a1 r1]; [congruence|].
  destruct uid as [|a2 r2]; [congruence|].
  destruct nick as [|a3 r3]; [congruence|].
  set (roomId := String a1 r1) in *.
  set (uid := String a2 r2) in *.
  set (nick := String a3 r3) in *.
  unfold catch, room_set, await_select, ws_send.
  unfold JsMap.has. unfold registered in st1.
  destruct (JsMap.get (rooms st) roomId) as [room|] eqn:Hget.
  - run. repeat (rewrite Hget; run).
    destruct (storage w); run; try rewrite broadcastToRoom_spec; run.
    + f_equal. unfold set_sent. cbn. f_equal. rewrite <- app_assoc. reflexivity.
    + f_equal. unfold set_sent. cbn. f_equal. rewrite <- app_assoc. reflexivity.
    + reflexivity.
  - run. rewrite Hget. run. rewrite get_set_eq. run. rewrite set_set.
    destruct (storage w); run; try rewrite broadcastToRoom_spec; run.
    + f_equal. unfold set_sent. cbn. f_equal. rewrite <- app_assoc. reflexivity.
    + f_equal. unfold set_sent. cbn. f_equal. rewrite <- app_assoc. reflexivity.
    + reflexivity.
Qed.

(** A join frame with a field missing or empty only draws an error. *)
Lemma handleJoin_invalid w c message st :
  truthy (msg_roomId message) && truthy (msg_userId message)
  && truthy (msg_nickname message) = false ->
  handleJoin w c message st
  = (Ret tt, set_sent (sent st ++ [(c, ErrorFrame "Missing required fields")]) st).
Proof.
  unfold handleJoin, truthy.
  destruct (msg_roomId message) as [[|? ?]|];
    destruct (msg_userId message) as [[|? ?]|];
    destruct (msg_nickname message) as [[|? ?]|];
    simpl; intro H; try discriminate; reflexivity.
Qed.

(** An explicit leave frame on a bound connection. *)
Lemma handleLeave_bound w c message roomId uid nick st :
  bound st c roomId uid nick ->
  handleLeave w c message st =
  (Ret tt,
   match lookup st roomId uid with
   | Some _ =>
       let st1 := removed st roomId uid in
       set_sent
         (sent st ++
          deliveries (recipients st1 roomId) (LeaveEvent uid (Some nick) (now w)))
         st1
   | None => st
   end).
Proof.
  intros (Hr & Hr0 & Hu & Hu0 & Hn). unfold handleLeave, lookup, removed.
  run. rewrite Hr, Hu, Hn.
  destruct roomId as [|a1 r1]; [congruence|].
  destruct uid as [|a2 r2]; [congruence|].
  set (roomId := String a1 r1) in *.
  set (uid := String a2 r2) in *.
  run. unfold JsMap.has.
  destruct (JsMap.get (rooms st) roomId) as [room|] eqn:Hget; [|reflexivity].
  destruct (JsMap.get room uid) as [member|] eqn:Hmem; [|reflexivity].
  unfold room_delete. run. rewrite broadcastToRoom_spec. reflexivity.
Qed.

(** A leave frame never touches the fields of the socket. *)
Lemma handleLeave_sockets w c message st :
  sockets (exec (handleLeave w c message) st) = sockets st.
Proof.
  unfold exec, handleLeave. run.
  destruct (ws_roomId (sockets st c)) as [[|a1 r1]|]; try reflexivity.
  destruct (ws_userId (sockets st c)) as [[|a2 r2]|]; try reflexivity.
  destruct (JsMap.get (rooms st) (String a1 r1)) as [room|]; [|reflexivity].
  destruct (JsMap.has room (String a2 r2)); [|reflexivity].
  unfold room_delete. run. rewrite broadcastToRoom_spec. reflexivity.
Qed.

(** A chat frame with content on a bound connection. *)
Lemma handleChatMessage_bound w c message roomId uid nick text verdict st :
  bound st c roomId uid nick ->
  msg_content message = Some text -> text <> "" ->
  detectCrisis (env w) text = Ret verdict ->
  handleChatMessage w c message st =
  match storage w with
  | storage_up =>
      (Ret tt,
       set_sent
         (sent st ++
          deliveries (recipients st roomId)
            (ChatEvent uid (Some nick) text (db_now w) (riskLevel verdict)) ++
          (if isCrisis verdict && negb (RiskLevel_eqb (riskLevel verdict) none)
           then [(c, CrisisAlert (riskLevel verdict)
                       (getCrisisResourcesMessage (riskLevel verdict)) (now w))]
           else []))
         (set_messages
            (messages st ++
             [{| room_id := roomId; user_id := uid; row_nickname := Some nick;
                 row_content := text; risk_level := riskLevel verdict;
                 created_at := db_now w |}])
            st))
  | storage_error _ =>
      (Ret tt, set_sent (sent st ++ [(c, ErrorFrame "Failed to save message")]) st)
  | storage_rejects reason => (Raise reason, st)
  end.
Proof.
  intros (Hr & Hr0 & Hu & Hu0 & Hn) Hc Hc0 Hv. unfold handleChatMessage.
  run. rewrite Hr, Hu, Hn, Hc.
  destruct roomId as [|a1 r1]; [congruence|].
  destruct uid as [|a2 r2]; [congruence|].
  destruct text as [|a3 r3]; [congruence|].
  set (roomId := String a1 r1) in *.
  set (uid := String a2 r2) in *.
  set (text := String a3 r3) in *.
  run. rewrite Hv. unfold await_insert.
  destruct (storage w); run; try reflexivity.
  rewrite broadcastToRoom_spec.
  assert (Hnick : or_else (Some nick) (Some nick) = Some nick).
  { unfold or_else. destruct (truthy (Some nick)); reflexivity. }
  rewrite Hnick.
  destruct (isCrisis verdict && negb (RiskLevel_eqb (riskLevel verdict) none)).
  - unfold ws_send. run. f_equal. unfold set_sent. cbn. f_equal.
    rewrite <- app_assoc. reflexivity.
  - run. rewrite app_nil_r. reflexivity.
Qed.

(** A chat frame without content, or on a connection that never
    joined, only draws an error. *)
Lemma handleChatMessage_unbound w c message st :
  truthy (msg_content message) && truthy (ws_roomId (sockets st c))
  && truthy (ws_userId (sockets st c)) = false ->
  handleChatMessage w c message st
  = (Ret tt, set_sent (sent st ++ [(c, ErrorFrame "Missing required fields")]) st).
Proof.
  unfold handleChatMessage, truthy. run.
  destruct (msg_content message) as [[|? ?]|];
    destruct (ws_roomId (sockets st c)) as [[|? ?]|];
    destruct (ws_userId (sockets st c)) as [[|? ?]|];
    simpl; intro H; try discriminate; reflexivity.
Qed.

(** The close listener: the entry is deleted when the stored socket is
    the closing one, nothing else happens. *)
Lemma handleDisconnect_bound c roomId uid nick st :
  bound st c roomId uid nick ->
  handleDisconnect c st =
  (Ret tt,
   match lookup st roomId uid with
   | Some member => if Nat.eqb (ws member) c then removed st roomId uid else st
   | None => st
   end).
Proof.
  intros (Hr & Hr0 & Hu & Hu0 & Hn). unfold handleDisconnect, lookup, removed.
  run. rewrite Hr, Hu.
  destruct roomId as [|a1 r1]; [congruence|].
  destruct uid as [|a2 r2]; [congruence|].
  set (roomId := String a1 r1) in *.
  set (uid := String a2 r2) in *.
  run. unfold JsMap.has.
  destruct (JsMap.get (rooms st) roomId) as [room|] eqn:Hget; [|reflexivity].
  destruct (JsMap.get room uid) as [member|] eqn:Hmem; [|reflexivity].
  destruct (Nat.eqb (ws member) c); reflexivity.
Qed.

Lemma handleDisconnect_unbound c st :
  truthy (ws_roomId (sockets st c)) && truthy (ws_userId (sockets st c)) = false ->
  handleDisconnect c st = (Ret tt, st).
Proof.
  unfold handleDisconnect, truthy. run.
  destruct (ws_roomId (sockets st c)) as [[|? ?]|];
    destruct (ws_userId (sockets st c)) as [[|? ?]|];
    simpl; intro H; try discriminate; reflexivity.
Qed.

(** The close listener never writes to a socket and never throws. *)
Lemma handleDisconnect_silent c st :
  fst (handleDisconnect c st) = Ret tt /\
  sent (exec (handleDisconnect c) st) = sent st /\
  sockets (exec (handleDisconnect c) st) = sockets st.
Proof.
  unfold exec, handleDisconnect. run.
  destruct (ws_roomId (sockets st c)) as [[|a1 r1]|]; auto.
  destruct (ws_userId (sockets st c)) as [[|a2 r2]|]; auto.
  destruct (JsMap.get (rooms st) (String a1 r1)) as [room|]; auto.
  destruct (JsMap.has room (String a2 r2)); auto.
  destruct (JsMap.get room (String a2 r2)) as [member|]; auto.
  destruct (Nat.eqb (ws member) c); auto.
Qed.

End HandlerFacts.

(* ================================================================= *)
(** ** Chat frames *)

Section ChatProperties.

(** What the ['message'] listener does with a chat frame that carries
    content, on a bound connection. *)
Lemma on_message_chat w c message roomId uid nick text verdict st :
  bound st c roomId uid nick ->
  msg_type message = type_chat ->
  msg_content message = Some text -> text <> "" ->
  detectCrisis (env w) text = Ret verdict ->
  exec (on_message w c (Ret message)) st =
  match storage w with
  | storage_up =>
      set_sent
        (sent st ++
         deliveries (recipients st roomId)
           (ChatEvent uid (Some nick) text (db_now w) (riskLevel verdict)) ++
         (if isCrisis verdict && negb (RiskLevel_eqb (riskLevel verdict) none)
          then [(c, CrisisAlert (riskLevel verdict)
                      (getCrisisResourcesMessage (riskLevel verdict)) (now w))]
          else []))
        (set_messages
           (messages st ++
            [{| room_id := roomId; user_id := uid; row_nickname := Some nick;
                row_content := text; risk_level := riskLevel verdict;
                created_at := db_now w |}])
           st)
  | storage_error _ =>
      set_sent (sent st ++ [(c, ErrorFrame "Failed to save message")]) st
  | storage_rejects _ =>
      set_sent (sent st ++ [(c, ErrorFrame "Invalid message format")]) st
  end.
Proof.
  intros Hb Ht Hc Hc0 Hv.
  unfold exec, on_message, catch, mbind, lift, handleMessage.
  rewrite Ht.
  rewrite (handleChatMessage_bound w c message roomId uid nick text verdict st
             Hb Hc Hc0 Hv).
  destruct (storage w); reflexivity.
Qed.

(** C1.  A chat frame with content on a bound connection: when the
    storage call succeeds the row is stored and the chat event is written
    to every open socket of the room, followed at most by private crisis
    replies to the sender; when it fails (error answer or rejected
    promise) nothing is stored, the sender alone gets one error frame,
    and no chat event is written to anyone.  A chat event is therefore
    sent only if the message was persisted. *)
Theorem chat_broadcast_iff_persisted w c message roomId uid nick text st :
  bound st c roomId uid nick ->
  msg_type message = type_chat ->
  msg_content message = Some text -> text <> "" ->
  let st' := exec (on_message w c (Ret message)) st in
  exists verdict,
    detectCrisis (env w) text = Ret verdict /\
    let event := ChatEvent uid (Some nick) text (db_now w) (riskLevel verdict) in
    let row := {| room_id := roomId; user_id := uid; row_nickname := Some nick;
                  row_content := text; risk_level := riskLevel verdict;
                  created_at := db_now w |} in
    (storage w = storage_up ->
       messages st' = (messages st ++ [row])%list /\
       exists private,
         new_sends st st' = (deliveries (recipients st roomId) event ++ private)%list /\
         Forall (fun x => fst x = c /\ is_crisis_alert (snd x) = true) private) /\
    (storage w <> storage_up ->
       messages st' = messages st /\
       exists reason, new_sends st st' = [(c, ErrorFrame reason)]) /\
    (forall c' f, In (c', f) (new_sends st st') -> is_chat_event f = true ->
       storage w = storage_up /\ f = event /\ In c' (recipients st roomId)) /\
    rooms st' = rooms st.
Proof.
  intros Hb Ht Hc Hc0 st'.
  destruct (detectCrisis_total (env w) text) as [verdict Hv].
  exists verdict. split; [exact Hv|]. cbv zeta.
  pose proof (on_message_chat w c message roomId uid nick text verdict st
                Hb Ht Hc Hc0 Hv) as E.
  fold st' in E.
  destruct (storage w) as [|e|r] eqn:Hs.
  - set (alert := if isCrisis verdict && negb (RiskLevel_eqb (riskLevel verdict) none)
                  then [(c, CrisisAlert (riskLevel verdict)
                              (getCrisisResourcesMessage (riskLevel verdict)) (now w))]
                  else []) in E.
    assert (Hnew : new_sends st st'
                   = (deliveries (recipients st roomId)
                        (ChatEvent uid (Some nick) text (db_now w) (riskLevel verdict))
                      ++ alert)%list).
    { apply new_sends_app. rewrite E. reflexivity. }
    assert (Halert : Forall (fun x => fst x = c /\ is_crisis_alert (snd x) = true) alert).
    { subst alert. destruct (isCrisis verdict && _); repeat constructor. }
    split; [|split; [|split]].
    + intros _. split; [rewrite E; reflexivity|].
      exists alert. split; assumption.
    + intro H. now destruct H.
    + intros c' f H Hf. rewrite Hnew in H. apply in_app_or in H.
      destruct H as [H|H].
      * apply In_deliveries in H. destruct H as [H ->]. auto.
      * rewrite Forall_forall in Halert. apply Halert in H.
        simpl in H. destruct f; simpl in *; destruct H; discriminate.
    + rewrite E. reflexivity.
  - assert (Hnew : new_sends st st' = [(c, ErrorFrame "Failed to save message")]).
    { apply new_sends_app. rewrite E. reflexivity. }
    split; [|split; [|split]].
    + discriminate.
    + intros _. split; [rewrite E; reflexivity|]. eexists. exact Hnew.
    + intros c' f H Hf. rewrite Hnew in H. destruct H as [H|[]].
      inversion H. subst. discriminate.
    + rewrite E. reflexivity.
  - assert (Hnew : new_sends st st' = [(c, ErrorFrame "Invalid message format")]).
    { apply new_sends_app. rewrite E. reflexivity. }
    split; [|split; [|split]].
    + discriminate.
    + intros _. split; [rewrite E; reflexivity|]. eexists. exact Hnew.
    + intros c' f H Hf. rewrite Hnew in H. destruct H as [H|[]].
      inversion H. subst. discriminate.
    + rewrite E. reflexivity.
Qed.

Lemma chat_broadcast_iff_persisted_witness :
  bound Scenario.two_members 1 "r1" "u1" "Alice" /\
  rooms (exec (on_message Scenario.up 1 (Ret (chat_frame "hello")))
              Scenario.two_members)
  = rooms Scenario.two_members.
Proof.
  assert (Hb : bound Scenario.two_members 1 "r1" "u1" "Alice").
  { unfold bound. repeat split; try reflexivity; discriminate. }
  split; [exact Hb|].
  destruct (chat_broadcast_iff_persisted Scenario.up 1 (chat_frame "hello")
              "r1" "u1" "Alice" "hello" Scenario.two_members Hb eq_refl eq_refl)
    as [v [_ [_ [_ [_ H]]]]]; [discriminate|exact H].
Defined.

(** C3, as the code has it.  After a chat frame the only crisis reply
    is one private frame to the sender, sent exactly when the message was
    persisted and the verdict's level is not [none] (which is when
    [isCrisis] holds): a [low] verdict draws a reply too.  The message is
    the urgent text (emergency reminder, call to reach a professional
    immediately, hotlines) for [critical] and [high], the softer text
    (emergency reminder, hotlines) for [medium], and a support text with
    the hotlines only for [low]. *)
Theorem crisis_alert_policy w c message roomId uid nick text st :
  bound st c roomId uid nick ->
  msg_type message = type_chat ->
  msg_content message = Some text -> text <> "" ->
  let st' := exec (on_message w c (Ret message)) st in
  exists verdict,
    detectCrisis (env w) text = Ret verdict /\
    isCrisis verdict = negb (RiskLevel_eqb (riskLevel verdict) none) /\
    (forall c' lvl m t, In (c', CrisisAlert lvl m t) (new_sends st st') ->
       c' = c /\ storage w = storage_up /\ isCrisis verdict = true /\
       lvl = riskLevel verdict /\ lvl <> none /\
       m = getCrisisResourcesMessage lvl /\ t = now w) /\
    (storage w = storage_up -> riskLevel verdict <> none ->
       In (c, CrisisAlert (riskLevel verdict)
                (getCrisisResourcesMessage (riskLevel verdict)) (now w))
          (new_sends st st')) /\
    (forall lvl, lvl = critical \/ lvl = high ->
       let m := getCrisisResourcesMessage lvl in
       has_emergency_reminder m = true /\ has_urgent_call m = true /\
       has_hotlines m = true) /\
    (let m := getCrisisResourcesMessage medium in
     has_emergency_reminder m = true /\ has_urgent_call m = false /\
     has_hotlines m = true) /\
    (let m := getCrisisResourcesMessage low in
     has_emergency_reminder m = false /\ has_urgent_call m = false /\
     has_hotlines m = true).
Proof.
  intros Hb Ht Hc Hc0 st'.
  destruct (detectCrisis_total (env w) text) as [verdict Hv].
  exists verdict. split; [exact Hv|].
  pose proof (detectCrisis_isCrisis _ _ _ Hv) as Hcrisis.
  split; [exact Hcrisis|].
  pose proof (on_message_chat w c message roomId uid nick text verdict st
                Hb Ht Hc Hc0 Hv) as E.
  fold st' in E.
  assert (Hnone : RiskLevel_eqb (riskLevel verdict) none = false
                  <-> riskLevel verdict <> none).
  { rewrite <- RiskLevel_eqb_eq.
    destruct (RiskLevel_eqb (riskLevel verdict) none); split; congruence. }
  split; [|split; [|split; [|split]]].
  - intros c' lvl m t H.
    destruct (storage w) as [|e|r] eqn:Hs.
    + rewrite (new_sends_app st st' _ ltac:(rewrite E; reflexivity)) in H.
      apply in_app_or in H. destruct H as [H|H].
      * apply In_deliveries in H. destruct H as [_ H]. discriminate.
      * rewrite Hcrisis in *.
        destruct (RiskLevel_eqb (riskLevel verdict) none) eqn:Hn;
          simpl in H; [destruct H|].
        destruct H as [H|[]]. inversion H. subst.
        repeat split; try reflexivity. now apply Hnone.
    + rewrite (new_sends_app st st' _ ltac:(rewrite E; reflexivity)) in H.
      destruct H as [H|[]]. discriminate.
    + rewrite (new_sends_app st st' _ ltac:(rewrite E; reflexivity)) in H.
      destruct H as [H|[]]. discriminate.
  - intros Hs Hlvl. rewrite Hs in E.
    rewrite (new_sends_app st st' _ ltac:(rewrite E; reflexivity)).
    apply in_or_app. right. rewrite Hcrisis.
    apply Hnone in Hlvl. rewrite Hlvl. simpl. now left.
  - intros lvl [->| ->]; vm_compute; auto.
  - vm_compute; auto.
  - vm_compute; auto.
Qed.

Lemma crisis_alert_policy_witness :
  bound Scenario.two_members 1 "r1" "u1" "Alice" /\
  exists verdict,
    detectCrisis (env Scenario.up) "i want to die" = Ret verdict /\
    isCrisis verdict = negb (RiskLevel_eqb (riskLevel verdict) none).
Proof.
  assert (Hb : bound Scenario.two_members 1 "r1" "u1" "Alice").
  { unfold bound. repeat split; try reflexivity; discriminate. }
  split; [exact Hb|].
  destruct (crisis_alert_policy Scenario.up 1 (chat_frame "i want to die")
              "r1" "u1" "Alice" "i want to die" Scenario.two_members
              Hb eq_refl eq_refl)
    as [v [Hv [Hc _]]]; [discriminate|].
  exists v. split; assumption.
Defined.

(** C3 as stated fails: a message whose final level is [low] does draw
    a private crisis reply.  "i feel alone" matches the low-tier phrase
    "alone" only, and the sender (socket 1) receives the reply. *)
Lemma low_risk_draws_crisis_alert :
  (exists verdict,
     detectCrisis Scenario.keyword_env "i feel alone" = Ret verdict /\
     riskLevel verdict = low /\ isCrisis verdict = true) /\
  In (1, CrisisAlert low (getCrisisResourcesMessage low) 9)
     (new_sends Scenario.two_members
        (exec (on_message Scenario.up 1 (Ret (chat_frame "i feel alone")))
              Scenario.two_members)).
Proof.
  split.
  - eexists. split; [reflexivity|]. split; reflexivity.
  - vm_compute. right. right. left. reflexivity.
Qed.

End ChatProperties.

(* ================================================================= *)
(** ** Facts about the room registry *)

Section RegistryFacts.

Lemma wf_state_rooms st st' :
  rooms st' = rooms st -> wf_state st -> wf_state st'.
Proof. unfold wf_state. intros ->. tauto. Qed.

Lemma wf_state_initial : wf_state initial.
Proof. split; [constructor|intros ? ? []]. Qed.

Lemma lookup_registered st c roomId uid nick :
  lookup (registered st c roomId uid nick) roomId uid
  = Some {| ws := c; userId := uid; nickname := nick |}.
Proof.
  unfold lookup, registered. cbn -[JsMap.get JsMap.set].
  rewrite get_set_eq. apply get_set_eq.
Qed.

Lemma wf_state_registered st c roomId uid nick :
  wf_state st -> wf_state (registered st c roomId uid nick).
Proof.
  intros [Hout Hin]. unfold wf_state, registered. cbn -[JsMap.get JsMap.set].
  split; [now apply wf_set|].
  intros r room H. apply In_set in H. destruct H as [H|H]; [|now apply Hin with r].
  inversion H. subst. apply wf_set.
  destruct (JsMap.get (rooms st) roomId) as [room0|] eqn:G.
  - apply Hin with roomId. now apply get_In.
  - constructor.
Qed.

Lemma lookup_removed_ne st roomId uid r u :
  (r, u) <> (roomId, uid) ->
  lookup (removed st roomId uid) r u = lookup st r u.
Proof.
  intro Hne. unfold lookup, removed.
  destruct (JsMap.get (rooms st) roomId) as [room|] eqn:G; [|reflexivity].
  cbn -[JsMap.get JsMap.set JsMap.delete].
  destruct (string_dec r roomId) as [->|Hr].
  - rewrite get_set_eq, G. apply get_delete_ne. congruence.
  - now rewrite get_set_ne.
Qed.

Lemma lookup_removed_eq st roomId uid :
  wf_state st -> lookup (removed st roomId uid) roomId uid = None.
Proof.
  intros [Hout Hin]. unfold lookup, removed.
  destruct (JsMap.get (rooms st) roomId) as [room|] eqn:G.
  - cbn -[JsMap.get JsMap.set JsMap.delete]. rewrite get_set_eq.
    apply get_delete_eq. apply Hin with roomId. now apply get_In.
  - now rewrite G.
Qed.

Lemma wf_state_removed st roomId uid :
  wf_state st -> wf_state (removed st roomId uid).
Proof.
  intros [Hout Hin]. unfold removed.
  destruct (JsMap.get (rooms st) roomId) as [room|] eqn:G; [|now split].
  split; cbn -[JsMap.get JsMap.set JsMap.delete]; [now apply wf_set|].
  intros r room' H. apply In_set in H. destruct H as [H|H]; [|now apply Hin with r].
  inversion H. subst. apply wf_delete. apply Hin with roomId. now apply get_In.
Qed.

(** Entries of one room that count for [(roomId, uid)]. *)
Lemma count_in_room (k0 roomId uid : string) (room : Room) :
  length (filter (fun e : string * string * RoomMember =>
                    String.eqb (fst (fst e)) roomId && String.eqb (snd (fst e)) uid)
                 (map (fun kv => (k0, fst kv, snd kv)) room))
  = if String.eqb k0 roomId
    then length (filter (fun kv => String.eqb (fst kv) uid) room)
    else 0.
Proof.
  induction room as [|[u m] room IH]; simpl.
  - now destruct (String.eqb k0 roomId).
  - destruct (String.eqb k0 roomId); simpl in *.
    + destruct (String.eqb u uid); simpl; now rewrite IH.
    + exact IH.
Qed.

Lemma membership_count_get st roomId uid :
  JsMap.wf (rooms st) ->
  membership_count st roomId uid
  = match JsMap.get (rooms st) roomId with
    | Some room => length (filter (fun kv => String.eqb (fst kv) uid) room)
    | None => 0
    end.
Proof.
  unfold membership_count, memberships, JsMap.wf.
  induction (rooms st) as [|[k0 room0] rest IH]; simpl; [reflexivity|].
  intro Hnd. inversion Hnd as [|? ? Hnotin Hnd']. subst.
  rewrite filter_app, length_app, count_in_room, (IH Hnd').
  destruct (String.eqb k0 roomId) eqn:E; [|reflexivity].
  apply String.eqb_eq in E. subst k0.
  destruct (JsMap.get rest roomId) as [room1|] eqn:G; [|lia].
  exfalso. apply Hnotin. apply get_In in G. now apply In_keys with room1.
Qed.

Lemma at_most_one_membership st roomId uid :
  wf_state st -> membership_count st roomId uid <= 1.
Proof.
  intros [Hout Hin]. rewrite membership_count_get by assumption.
  destruct (JsMap.get (rooms st) roomId) as [room|] eqn:G; [|lia].
  rewrite count_key by (apply Hin with roomId; now apply get_In).
  destruct (JsMap.has room uid); lia.
Qed.

Lemma membership_count_lookup st roomId uid :
  wf_state st ->
  membership_count st roomId uid
  = match lookup st roomId uid with Some _ => 1 | None => 0 end.
Proof.
  intros [Hout Hin]. rewrite membership_count_get by assumption. unfold lookup.
  destruct (JsMap.get (rooms st) roomId) as [room|] eqn:G; [|reflexivity].
  rewrite count_key by (apply Hin with roomId; now apply get_In).
  unfold JsMap.has. now destruct (JsMap.get room uid).
Qed.

End RegistryFacts.

(* ================================================================= *)
(** ** Joining, closing, broadcasting, leaving *)

Section RegistryProperties.

Lemma rooms_after_join w c message st :
  rooms (exec (handleJoin w c message) st) = rooms st \/
  exists roomId uid nick,
    valid_join message roomId uid nick /\
    rooms (exec (handleJoin w c message) st)
    = rooms (registered st c roomId uid nick).
Proof.
  destruct (truthy (msg_roomId message) && truthy (msg_userId message)
            && truthy (msg_nickname message)) eqn:E.
  - right. unfold truthy in E.
    destruct (msg_roomId message) as [[|a1 r1]|] eqn:Hr; try discriminate.
    destruct (msg_userId message) as [[|a2 r2]|] eqn:Hu; try discriminate.
    destruct (msg_nickname message) as [[|a3 r3]|] eqn:Hn; try discriminate.
    exists (String a1 r1), (String a2 r2), (String a3 r3).
    assert (Hv : valid_join message (String a1 r1) (String a2 r2) (String a3 r3)).
    { unfold valid_join. repeat split; try assumption; discriminate. }
    split; [exact Hv|].
    destruct Hv as (H1 & H2 & H3 & H4 & H5 & H6).
    unfold exec.
    rewrite (handleJoin_valid w c message _ _ _ st H1 H2 H3 H4 H5 H6).
    destruct (storage w); reflexivity.
  - left. unfold exec. rewrite handleJoin_invalid by exact E. reflexivity.
Qed.

Lemma handleJoin_wf w c message st :
  wf_state st -> wf_state (exec (handleJoin w c message) st).
Proof.
  intro Hwf. destruct (rooms_after_join w c message st) as [H|(r & u & n & _ & H)].
  - now apply wf_state_rooms with st.
  - apply wf_state_rooms with (registered st c r u n); [exact H|].
    now apply wf_state_registered.
Qed.

Lemma lookup_after_join w c message roomId uid nick st :
  valid_join message roomId uid nick ->
  lookup (exec (handleJoin w c message) st) roomId uid
  = Some {| ws := c; userId := uid; nickname := nick |}.
Proof.
  intros (H1 & H2 & H3 & H4 & H5 & H6). unfold exec.
  rewrite (handleJoin_valid w c message _ _ _ st H1 H2 H3 H4 H5 H6).
  rewrite <- (lookup_registered st c roomId uid nick).
  destruct (storage w); reflexivity.
Qed.

(** C6.  Two joins for the same [(roomId, userId)], from any sockets and
    with any nicknames: after the second exactly one membership is held
    for that identity, and it carries the second socket and the second
    nickname; the same holds when other events came between the two
    joins.  Every join frame, valid or not, keeps the keys of the
    registry unique, hence at most one membership per identity.
    [wf_state] is the uniqueness of keys that a [Map] has by
    construction; it holds in every reachable state ([reachable_wf]). *)
Theorem rejoin_replaces_membership
    st w1 c1 m1 nick1 w2 c2 m2 nick2 roomId uid :
  wf_state st ->
  valid_join m1 roomId uid nick1 ->
  valid_join m2 roomId uid nick2 ->
  let st1 := exec (handleJoin w1 c1 m1) st in
  let st2 := exec (handleJoin w2 c2 m2) st1 in
  membership_count st2 roomId uid = 1 /\
  lookup st2 roomId uid = Some {| ws := c2; userId := uid; nickname := nick2 |} /\
  wf_state st1 /\ wf_state st2 /\
  (forall r u, membership_count st1 r u <= 1) /\
  (forall r u, membership_count st2 r u <= 1) /\
  (forall w c message,
     let st' := exec (handleJoin w c message) st in
     wf_state st' /\ forall r u, membership_count st' r u <= 1) /\
  (forall later,
     wf_state later ->
     let st' := exec (handleJoin w2 c2 m2) later in
     membership_count st' roomId uid = 1 /\
     lookup st' roomId uid
     = Some {| ws := c2; userId := uid; nickname := nick2 |}).
Proof.
  intros Hwf Hv1 Hv2 st1 st2.
  assert (Hwf1 : wf_state st1) by now apply handleJoin_wf.
  assert (Hwf2 : wf_state st2) by now apply handleJoin_wf.
  assert (Hl : lookup st2 roomId uid
               = Some {| ws := c2; userId := uid; nickname := nick2 |})
    by now apply lookup_after_join.
  split; [rewrite membership_count_lookup, Hl by assumption; reflexivity|].
  split; [exact Hl|].
  split; [exact Hwf1|]. split; [exact Hwf2|].
  split; [intros; now apply at_most_one_membership|].
  split; [intros; now apply at_most_one_membership|].
  split.
  - intros w c message st'.
    assert (Hwf' : wf_state st') by now apply handleJoin_wf.
    split; [exact Hwf'|]. intros; now apply at_most_one_membership.
  - intros later Hlater st'.
    assert (Hwf' : wf_state st') by now apply handleJoin_wf.
    assert (Hl' : lookup st' roomId uid
                  = Some {| ws := c2; userId := uid; nickname := nick2 |})
      by now apply lookup_after_join.
    split; [rewrite membership_count_lookup, Hl' by assumption; reflexivity|].
    exact Hl'.
Qed.

Lemma rejoin_replaces_membership_witness :
  wf_state initial /\
  valid_join (join_frame "r1" "u1" "Alice") "r1" "u1" "Alice" /\
  valid_join (join_frame "r1" "u1" "Ally") "r1" "u1" "Ally" /\
  membership_count
    (exec (handleJoin Scenario.up 3 (join_frame "r1" "u1" "Ally"))
       (exec (handleJoin Scenario.up 1 (join_frame "r1" "u1" "Alice")) initial))
    "r1" "u1" = 1.
Proof.
  assert (H1 : valid_join (join_frame "r1" "u1" "Alice") "r1" "u1" "Alice").
  { unfold valid_join. repeat split; try reflexivity; discriminate. }
  assert (H2 : valid_join (join_frame "r1" "u1" "Ally") "r1" "u1" "Ally").
  { unfold valid_join. repeat split; try reflexivity; discriminate. }
  split; [exact wf_state_initial|]. split; [exact H1|]. split; [exact H2|].
  exact (proj1 (rejoin_replaces_membership initial Scenario.up 1 _ "Alice"
                  Scenario.up 3 _ "Ally" "r1" "u1" wf_state_initial H1 H2)).
Defined.

End RegistryProperties.

Section CloseProperties.

Lemma on_close_rooms c st :
  rooms (exec (on_close c) st)
  = rooms (exec (handleDisconnect c) st).
Proof.
  unfold exec, on_close, handleDisconnect. run.
  rewrite Nat.eqb_refl. cbn.
  destruct (ws_roomId (sockets st c)) as [[|a1 r1]|]; try reflexivity.
  destruct (ws_userId (sockets st c)) as [[|a2 r2]|]; try reflexivity.
  cbn -[JsMap.get JsMap.has JsMap.set JsMap.delete].
  destruct (JsMap.get (rooms st) (String a1 r1)) as [room|]; [|reflexivity].
  destruct (JsMap.has room (String a2 r2)); [|reflexivity].
  destruct (JsMap.get room (String a2 r2)) as [member|]; [|reflexivity].
  destruct (Nat.eqb (ws member) c); reflexivity.
Qed.

Lemma on_close_sent c st : sent (exec (on_close c) st) = sent st.
Proof.
  unfold exec, on_close, handleDisconnect. run.
  rewrite Nat.eqb_refl. cbn.
  destruct (ws_roomId (sockets st c)) as [[|a1 r1]|]; try reflexivity.
  destruct (ws_userId (sockets st c)) as [[|a2 r2]|]; try reflexivity.
  cbn -[JsMap.get JsMap.has JsMap.set JsMap.delete].
  destruct (JsMap.get (rooms st) (String a1 r1)) as [room|]; [|reflexivity].
  destruct (JsMap.has room (String a2 r2)); [|reflexivity].
  destruct (JsMap.get room (String a2 r2)) as [member|]; [|reflexivity].
  destruct (Nat.eqb (ws member) c); reflexivity.
Qed.

(** The close listener changes a membership only if it is the one the
    closing socket is bound to and the stored socket is the closing one. *)
Lemma handleDisconnect_lookup c st r u member :
  lookup st r u = Some member ->
  lookup (exec (handleDisconnect c) st) r u <> Some member ->
  ws member = c /\ ws_roomId (sockets st c) = Some r /\
  ws_userId (sockets st c) = Some u.
Proof.
  intros Hl Hchg.
  destruct (truthy (ws_roomId (sockets st c)) && truthy (ws_userId (sockets st c)))
    eqn:E.
  - unfold truthy in E.
    destruct (ws_roomId (sockets st c)) as [[|a1 r1]|] eqn:Hr; try discriminate.
    destruct (ws_userId (sockets st c)) as [[|a2 r2]|] eqn:Hu; try discriminate.
    unfold exec, handleDisconnect in Hchg. revert Hchg. run. rewrite Hr, Hu. run.
    unfold JsMap.has.
    destruct (JsMap.get (rooms st) (String a1 r1)) as [room|] eqn:G;
      [|intro Hchg; now destruct Hchg].
    destruct (JsMap.get room (String a2 r2)) as [stored|] eqn:Gm;
      [|intro Hchg; now destruct Hchg].
    destruct (Nat.eqb (ws stored) c) eqn:Ews; [|intro Hchg; now destruct Hchg].
    unfold room_delete. run. intro Hchg.
    destruct (string_dec r (String a1 r1)) as [->|Hne].
    + destruct (string_dec u (String a2 r2)) as [->|Hne].
      * unfold lookup in Hl. rewrite G, Gm in Hl. inversion Hl. subst.
        apply Nat.eqb_eq in Ews. auto.
      * exfalso. apply Hchg. unfold lookup. cbn -[JsMap.get JsMap.set JsMap.delete].
        rewrite get_set_eq, get_delete_ne by assumption.
        unfold lookup in Hl. now rewrite G in Hl.
    + exfalso. apply Hchg. unfold lookup. cbn -[JsMap.get JsMap.set JsMap.delete].
      rewrite get_set_ne by assumption. exact Hl.
  - exfalso. apply Hchg. unfold exec.
    rewrite handleDisconnect_unbound by exact E. exact Hl.
Qed.

(** C7.  When the membership of the closing socket's identity is held
    by another socket, the close listener changes nothing: the state is
    the same and the newer membership stays.  Conversely, a membership
    that is gone after a close was the one the closing socket is bound
    to, and its stored socket was the closing socket itself. *)
Theorem stale_close_keeps_membership c st :
  (forall roomId uid nick member,
     bound st c roomId uid nick ->
     lookup st roomId uid = Some member ->
     ws member <> c ->
     exec (handleDisconnect c) st = st /\
     rooms (exec (on_close c) st) = rooms st /\
     lookup (exec (on_close c) st) roomId uid = Some member) /\
  (forall r u member,
     lookup st r u = Some member ->
     lookup (exec (on_close c) st) r u <> Some member ->
     ws member = c /\ ws_roomId (sockets st c) = Some r /\
     ws_userId (sockets st c) = Some u).
Proof.
  split.
  - intros roomId uid nick member Hb Hl Hne.
    assert (E : exec (handleDisconnect c) st = st).
    { unfold exec. rewrite (handleDisconnect_bound c roomId uid nick st Hb), Hl.
      apply Nat.eqb_neq in Hne. rewrite Hne. reflexivity. }
    split; [exact E|].
    assert (R : rooms (exec (on_close c) st) = rooms st)
      by (rewrite on_close_rooms, E; reflexivity).
    split; [exact R|]. unfold lookup in *. rewrite R. exact Hl.
  - intros r u member Hl Hchg.
    apply handleDisconnect_lookup; [exact Hl|].
    unfold lookup in *. rewrite <- on_close_rooms. exact Hchg.
Qed.

Lemma stale_close_keeps_membership_witness :
  bound Scenario.reconnected 1 "r1" "u1" "Alice" /\
  lookup Scenario.reconnected "r1" "u1"
  = Some {| ws := 3; userId := "u1"; nickname := "Alice" |} /\
  rooms (exec (on_close 1) Scenario.reconnected) = rooms Scenario.reconnected.
Proof.
  assert (Hb : bound Scenario.reconnected 1 "r1" "u1" "Alice").
  { unfold bound. repeat split; try reflexivity; discriminate. }
  split; [exact Hb|]. split; [reflexivity|].
  refine (proj1 (proj2 (proj1 (stale_close_keeps_membership 1 Scenario.reconnected)
                          "r1" "u1" "Alice" _ Hb eq_refl _))).
  discriminate.
Defined.

End CloseProperties.

(* ================================================================= *)
(** ** Reachable states *)

Section Reachability.

Lemma handleChatMessage_rooms w c message st :
  rooms (snd (handleChatMessage w c message st)) = rooms st.
Proof.
  unfold handleChatMessage. run.
  destruct (msg_content message) as [[|a3 r3]|]; try reflexivity.
  destruct (ws_roomId (sockets st c)) as [[|a1 r1]|]; try reflexivity.
  destruct (ws_userId (sockets st c)) as [[|a2 r2]|]; try reflexivity.
  destruct (detectCrisis (env w) (String a3 r3)) as [verdict|]; [|reflexivity].
  unfold await_insert.
  destruct (storage w); run; try reflexivity.
  rewrite broadcastToRoom_spec.
  destruct (isCrisis verdict && _); reflexivity.
Qed.

Lemma handleLeave_wf w c message st :
  wf_state st -> wf_state (snd (handleLeave w c message st)).
Proof.
  intro Hwf. unfold handleLeave. run.
  destruct (ws_roomId (sockets st c)) as [[|a1 r1]|]; try exact Hwf.
  destruct (ws_userId (sockets st c)) as [[|a2 r2]|]; try exact Hwf.
  destruct (JsMap.get (rooms st) (String a1 r1)) as [room|] eqn:G; [|exact Hwf].
  destruct (JsMap.has room (String a2 r2)); [|exact Hwf].
  unfold room_delete. run. rewrite broadcastToRoom_spec.
  apply wf_state_rooms with (removed st (String a1 r1) (String a2 r2)).
  - unfold removed. rewrite G. reflexivity.
  - now apply wf_state_removed.
Qed.

Lemma handleDisconnect_wf c st :
  wf_state st -> wf_state (snd (handleDisconnect c st)).
Proof.
  intro Hwf. unfold handleDisconnect. run.
  destruct (ws_roomId (sockets st c)) as [[|a1 r1]|]; try exact Hwf.
  destruct (ws_userId (sockets st c)) as [[|a2 r2]|]; try exact Hwf.
  destruct (JsMap.get (rooms st) (String a1 r1)) as [room|] eqn:G; [|exact Hwf].
  destruct (JsMap.has room (String a2 r2)); [|exact Hwf].
  destruct (JsMap.get room (String a2 r2)) as [member|]; [|exact Hwf].
  destruct (Nat.eqb (ws member) c); [|exact Hwf].
  unfold room_delete. run.
  apply wf_state_rooms with (removed st (String a1 r1) (String a2 r2)).
  - unfold removed. rewrite G. reflexivity.
  - now apply wf_state_removed.
Qed.

Lemma handleMessage_wf w c message st :
  wf_state st -> wf_state (snd (handleMessage w c message st)).
Proof.
  intro Hwf. unfold handleMessage. destruct (msg_type message).
  - now apply handleJoin_wf.
  - now apply handleLeave_wf.
  - apply wf_state_rooms with st; [apply handleChatMessage_rooms|exact Hwf].
  - exact Hwf.
  - exact Hwf.
Qed.

Lemma on_message_wf w c parsed st :
  wf_state st -> wf_state (exec (on_message w c parsed) st).
Proof.
  intro Hwf. unfold exec, on_message, catch, mbind, lift.
  destruct parsed as [message|reason]; [|exact Hwf].
  pose proof (handleMessage_wf w c message st Hwf) as H.
  destruct (handleMessage w c message st) as [[[]|r] st']; exact H.
Qed.

Lemma on_close_wf c st : wf_state st -> wf_state (exec (on_close c) st).
Proof.
  intro Hwf. apply wf_state_rooms with (exec (handleDisconnect c) st).
  - apply on_close_rooms.
  - now apply handleDisconnect_wf.
Qed.

Lemma heartbeatClient_wf c st :
  wf_state st ->
  fst (heartbeatClient c st) = Ret tt /\ wf_state (snd (heartbeatClient c st)).
Proof.
  intro Hwf. unfold heartbeatClient. run.
  destruct (isAlive (sockets st c)); cbn [negb].
  - split; [reflexivity|exact Hwf].
  - split; [|now apply on_close_wf].
    unfold on_close, mbind, modify. cbv beta iota.
    match goal with
    | |- fst (handleDisconnect c ?s) = _ =>
        exact (proj1 (handleDisconnect_silent c s))
    end.
Qed.

Lemma heartbeat_wf st : wf_state st -> wf_state (exec heartbeat st).
Proof.
  unfold exec, heartbeat. run. generalize (clients st) as cs.
  intros cs. revert st. induction cs as [|c cs IH]; intros st Hwf; [exact Hwf|].
  cbn [forEach]. unfold mbind.
  destruct (heartbeatClient_wf c st Hwf) as [Hret Hwf'].
  destruct (heartbeatClient c st) as [e st']. cbn [fst snd] in *. subst e.
  now apply IH.
Qed.

(** Keys are unique in every state the server can be in. *)
Lemma reachable_wf st : reachable st -> wf_state st.
Proof.
  induction 1 as [|st e _ IH]; [exact wf_state_initial|].
  destruct e as [c|w c parsed|c|c|]; cbn [listener].
  - exact IH.
  - now apply on_message_wf.
  - exact IH.
  - now apply on_close_wf.
  - now apply heartbeat_wf.
Qed.

Lemma run_events_reachable es : forall st,
  reachable st -> reachable (run_events es st).
Proof.
  induction es as [|e es IH]; intros st H; [exact H|].
  apply IH. now constructor.
Qed.

Lemma reachable_two_members : reachable Scenario.two_members.
Proof. apply run_events_reachable. constructor. Qed.

Lemma reachable_rejoined_elsewhere : reachable Scenario.rejoined_elsewhere.
Proof. apply run_events_reachable. constructor. Qed.

Lemma reachable_reconnected : reachable Scenario.reconnected.
Proof. apply run_events_reachable. exact reachable_two_members. Qed.

Lemma reachable_silent_peer_dropped : reachable Scenario.silent_peer_dropped.
Proof. apply run_events_reachable. exact reachable_two_members. Qed.

End Reachability.


Section BroadcastProperties.

Lemma In_recipients st roomId c :
  In c (recipients st roomId) <->
  is_open st c = true /\
  exists room uid member,
    JsMap.get (rooms st) roomId = Some room /\
    In (uid, member) room /\ ws member = c.
Proof.
  unfold recipients.
  destruct (JsMap.get (rooms st) roomId) as [room|].
  - rewrite filter_In. unfold JsMap.values. rewrite map_map, in_map_iff.
    split.
    + intros [[[uid member] [Hws Hin]] Hopen]. simpl in Hws.
      split; [exact Hopen|]. exists room, uid, member. auto.
    + intros [Hopen (room' & uid & member & Hroom & Hin & Hws)].
      inversion Hroom. subst room'. split; [|exact Hopen].
      exists (uid, member). auto.
  - simpl. split; [tauto|]. intros [_ (room & _ & _ & H & _)]. discriminate.
Qed.

(** C9, as the code has it.  A broadcast to room [roomId] writes the
    frame exactly to the sockets of the members registered in that room
    whose transport is open: never to a closed socket, never to a socket
    that is not registered in the room; and it changes nothing else. *)
Theorem broadcast_reaches_open_members_only roomId frame st :
  let st' := exec (broadcastToRoom roomId frame) st in
  fst (broadcastToRoom roomId frame st) = Ret tt /\
  rooms st' = rooms st /\
  (forall c f, In (c, f) (new_sends st st') <->
     f = frame /\ is_open st c = true /\
     exists room uid member,
       JsMap.get (rooms st) roomId = Some room /\
       In (uid, member) room /\ ws member = c) /\
  (forall c f, is_open st c = false -> ~ In (c, f) (new_sends st st')) /\
  (forall c f,
     (forall room uid member,
        JsMap.get (rooms st) roomId = Some room ->
        In (uid, member) room -> ws member <> c) ->
     ~ In (c, f) (new_sends st st')).
Proof.
  intro st'. unfold st', exec. rewrite broadcastToRoom_spec. cbn [fst snd].
  assert (Hnew : new_sends st
                   (set_sent (sent st ++ deliveries (recipients st roomId) frame) st)
                 = deliveries (recipients st roomId) frame)
    by (apply new_sends_app; reflexivity).
  rewrite Hnew.
  assert (Hiff : forall c f, In (c, f) (deliveries (recipients st roomId) frame) <->
     f = frame /\ is_open st c = true /\
     exists room uid member,
       JsMap.get (rooms st) roomId = Some room /\
       In (uid, member) room /\ ws member = c).
  { intros c f. rewrite In_deliveries, In_recipients. tauto. }
  split; [reflexivity|]. split; [reflexivity|]. split; [exact Hiff|]. split.
  - intros c f Hclosed H. apply Hiff in H. destruct H as [_ [H _]]. congruence.
  - intros c f Hnot H. apply Hiff in H.
    destruct H as [_ [_ (room & uid & member & Hroom & Hin & Hws)]].
    now apply (Hnot room uid member).
Qed.

(** C9 as stated fails: socket 1 joined r1 and then r2, so its binding
    names r2 while its entry in r1 is still there; a broadcast to r1 is
    written to it. *)
Lemma broadcast_reaches_socket_bound_elsewhere :
  reachable Scenario.rejoined_elsewhere /\
  ws_roomId (sockets Scenario.rejoined_elsewhere 1) = Some "r2" /\
  In (1, JoinEvent "u2" "Bob" 9)
     (new_sends Scenario.rejoined_elsewhere
        (exec (broadcastToRoom "r1" (JoinEvent "u2" "Bob" 9))
              Scenario.rejoined_elsewhere)).
Proof.
  split; [exact reachable_rejoined_elsewhere|].
  split; [reflexivity|]. vm_compute. left. reflexivity.
Qed.

End BroadcastProperties.

Section LeaveProperties.

(** C10.  An explicit leave frame on a bound connection removes the
    membership and announces the leave to the remaining open members,
    but leaves the fields of the socket as they were: the connection is
    still bound.  In every later state where those fields are unchanged,
    a chat frame with content on that connection is classified, stored
    (when the storage accepts it) and broadcast to the open members of
    the room that was left. *)
Theorem leave_keeps_binding w c message roomId uid nick member st :
  wf_state st ->
  bound st c roomId uid nick ->
  lookup st roomId uid = Some member ->
  let st1 := exec (handleLeave w c message) st in
  lookup st1 roomId uid = None /\
  new_sends st st1
  = deliveries (recipients st1 roomId) (LeaveEvent uid (Some nick) (now w)) /\
  sockets st1 = sockets st /\
  bound st1 c roomId uid nick /\
  forall w' chat text st2,
    sockets st2 c = sockets st1 c ->
    msg_type chat = type_chat ->
    msg_content chat = Some text -> text <> "" ->
    storage w' = storage_up ->
    let st3 := exec (on_message w' c (Ret chat)) st2 in
    exists verdict,
      detectCrisis (env w') text = Ret verdict /\
      messages st3
      = (messages st2 ++
         [{| room_id := roomId; user_id := uid; row_nickname := Some nick;
             row_content := text; risk_level := riskLevel verdict;
             created_at := db_now w' |}])%list /\
      exists private,
        new_sends st2 st3
        = (deliveries (recipients st2 roomId)
             (ChatEvent uid (Some nick) text (db_now w') (riskLevel verdict))
           ++ private)%list /\
        Forall (fun x => fst x = c /\ is_crisis_alert (snd x) = true) private.
Proof.
  intros Hwf Hb Hl st1.
  assert (E : st1 = set_sent
                (sent st ++
                 deliveries (recipients (removed st roomId uid) roomId)
                   (LeaveEvent uid (Some nick) (now w)))
                (removed st roomId uid)).
  { unfold st1, exec. rewrite (handleLeave_bound w c message roomId uid nick st Hb).
    rewrite Hl. reflexivity. }
  assert (Hs : sockets st1 = sockets st) by apply handleLeave_sockets.
  split.
  { rewrite E. apply (lookup_removed_eq st roomId uid Hwf). }
  split.
  { rewrite (new_sends_app st st1 _ ltac:(rewrite E; reflexivity)).
    rewrite E. reflexivity. }
  split; [exact Hs|].
  split.
  { unfold bound in *. rewrite Hs. exact Hb. }
  intros w' chat text st2 Hs2 Ht Hc Hc0 Hup st3.
  assert (Hb2 : bound st2 c roomId uid nick).
  { unfold bound in *. rewrite Hs2, Hs. exact Hb. }
  destruct (detectCrisis_total (env w') text) as [verdict Hv].
  exists verdict. split; [exact Hv|].
  pose proof (on_message_chat w' c chat roomId uid nick text verdict st2
                Hb2 Ht Hc Hc0 Hv) as E3.
  fold st3 in E3. rewrite Hup in E3.
  split; [rewrite E3; reflexivity|].
  eexists. split.
  - apply new_sends_app. rewrite E3. reflexivity.
  - destruct (isCrisis verdict && _); repeat constructor.
Qed.

Lemma wf_state_two_members : wf_state Scenario.two_members.
Proof. apply reachable_wf, reachable_two_members. Qed.

Lemma leave_keeps_binding_witness :
  wf_state Scenario.two_members /\
  bound Scenario.two_members 1 "r1" "u1" "Alice" /\
  lookup (exec (handleLeave Scenario.up 1 leave_frame) Scenario.two_members)
         "r1" "u1" = None.
Proof.
  assert (Hb : bound Scenario.two_members 1 "r1" "u1" "Alice").
  { unfold bound. repeat split; try reflexivity; discriminate. }
  split; [exact wf_state_two_members|]. split; [exact Hb|].
  exact (proj1 (leave_keeps_binding Scenario.up 1 leave_frame "r1" "u1" "Alice" _
                  Scenario.two_members wf_state_two_members Hb eq_refl)).
Defined.

End LeaveProperties.

Section DisconnectProperties.

(** C2, on the code.  Sockets 1 and 2 are members of r1; socket 1 does
    not answer a heartbeat probe and is terminated on the next tick.  Its
    membership is removed, socket 2 is still an open member of r1, and
    nothing was written to any socket: no leave event is broadcast. *)
Theorem heartbeat_drop_broadcasts_no_leave :
  reachable Scenario.silent_peer_dropped /\
  bound Scenario.two_members 1 "r1" "u1" "Alice" /\
  lookup Scenario.two_members "r1" "u1"
  = Some {| ws := 1; userId := "u1"; nickname := "Alice" |} /\
  is_open Scenario.silent_peer_dropped 1 = false /\
  lookup Scenario.silent_peer_dropped "r1" "u1" = None /\
  recipients Scenario.silent_peer_dropped "r1" = [2] /\
  new_sends Scenario.two_members Scenario.silent_peer_dropped = [].
Proof.
  split; [exact reachable_silent_peer_dropped|].
  split; [unfold bound; repeat split; try reflexivity; discriminate|].
  vm_compute. repeat split.
Qed.

End DisconnectProperties.

(* ================================================================= *)
(** ** History on join *)

Section HistoryFacts.

Lemma insert_desc_perm r l : Permutation (insert_desc r l) (r :: l).
Proof.
  induction l as [|x l IH]; simpl; [reflexivity|].
  destruct (created_at x <? created_at r)%nat; [reflexivity|].
  rewrite IH. apply perm_swap.
Qed.

Lemma order_desc_perm l : Permutation (order_desc l) l.
Proof.
  induction l as [|x l IH]; simpl; [reflexivity|].
  rewrite insert_desc_perm. now constructor.
Qed.

Lemma insert_desc_sorted r l : descending l -> descending (insert_desc r l).
Proof.
  unfold descending. induction l as [|x l IH]; simpl; intro Hs.
  - repeat constructor.
  - apply StronglySorted_inv in Hs. destruct Hs as [Hs Hx].
    destruct (created_at x <? created_at r)%nat eqn:E.
    + apply Nat.ltb_lt in E. constructor.
      * constructor; assumption.
      * constructor; [lia|].
        rewrite Forall_forall in *. intros y Hy. specialize (Hx y Hy). lia.
    + apply Nat.ltb_ge in E. constructor; [now apply IH|].
      rewrite Forall_forall in *. intros y Hy.
      apply (Permutation_in _ (insert_desc_perm r l)) in Hy.
      destruct Hy as [<-|Hy]; [exact E|now apply Hx].
Qed.

Lemma order_desc_sorted l : descending (order_desc l).
Proof.
  induction l as [|x l IH]; simpl; [constructor|].
  now apply insert_desc_sorted.
Qed.

Lemma In_firstn {A} n (l : list A) x : In x (firstn n l) -> In x l.
Proof.
  intro H. rewrite <- (firstn_skipn n l). apply in_or_app. now left.
Qed.

Lemma In_skipn {A} n (l : list A) x : In x (skipn n l) -> In x l.
Proof.
  intro H. rewrite <- (firstn_skipn n l). apply in_or_app. now right.
Qed.

(** The first [n] rows of a newest-first list are newest-first, and no
    row left out is newer than a row kept. *)
Lemma firstn_descending n : forall l,
  descending l ->
  descending (firstn n l) /\
  forall a b, In a (skipn n l) -> In b (firstn n l) ->
              (created_at a <= created_at b)%nat.
Proof.
  unfold descending. induction n as [|n IH]; intros l Hs; simpl.
  - split; [constructor|]. intros a b _ [].
  - destruct l as [|x l]; [split; [constructor|intros a b []]|].
    apply StronglySorted_inv in Hs. destruct Hs as [Hs Hx].
    destruct (IH l Hs) as [Hf Hold]. split.
    + constructor; [exact Hf|].
      rewrite Forall_forall in *. intros y Hy. apply Hx.
      now apply (In_firstn n l).
    + intros a b Ha [<-|Hb]; [|now apply Hold].
      rewrite Forall_forall in Hx. apply Hx.
      now apply (In_skipn n l).
Qed.

Lemma rev_descending l : descending l -> ascending (rev l).
Proof.
  unfold descending, ascending. induction l as [|x l IH]; simpl; intro Hs.
  - constructor.
  - apply StronglySorted_inv in Hs. destruct Hs as [Hs Hx].
    specialize (IH Hs). revert IH.
    assert (Hall : Forall (fun b => created_at b <= created_at x)%nat (rev l)).
    { rewrite Forall_forall in *. intros y Hy. apply Hx. now apply in_rev. }
    revert Hall. generalize (rev l) as k. induction k as [|y k IHk]; simpl.
    + intros _ _. repeat constructor.
    + intros Hall Hk. apply StronglySorted_inv in Hk. destruct Hk as [Hk Hy].
      inversion Hall as [|? ? Hyx Hall']. subst.
      constructor; [now apply IHk|].
      apply Forall_app. split; [exact Hy|]. repeat constructor. exact Hyx.
Qed.

(** The history sent on join: at most [limit] rows of the room, oldest
    first, and none of the room's other rows is newer than any of them. *)
Lemma select_recent_history table roomId limit :
  let history := rev (select_recent table roomId limit) in
  ascending history /\
  length history = Nat.min limit (length (room_rows table roomId)) /\
  exists older,
    Permutation (older ++ history) (room_rows table roomId) /\
    forall a b, In a older -> In b history ->
                (created_at a <= created_at b)%nat.
Proof.
  intro history. unfold history, select_recent. fold (room_rows table roomId).
  set (sorted := order_desc (room_rows table roomId)).
  assert (Hs : descending sorted) by apply order_desc_sorted.
  assert (Hp : Permutation sorted (room_rows table roomId)) by apply order_desc_perm.
  destruct (firstn_descending limit sorted Hs) as [Hf Hold].
  split; [now apply rev_descending|].
  split.
  - rewrite length_rev, length_firstn. now rewrite (Permutation_length Hp).
  - exists (skipn limit sorted). split.
    + rewrite <- Hp. rewrite <- (firstn_skipn limit sorted) at 3.
      rewrite Permutation_app_comm. apply Permutation_app_tail.
      symmetry. apply Permutation_rev.
    + intros a b Ha Hb. apply Hold; [exact Ha|]. now apply in_rev.
Qed.

End HistoryFacts.

Section JoinProperties.

(** C8, as the code has it.  A valid join stores the membership and the
    binding and announces the join to the open members of the room (the
    joiner included when its socket is open), whether or not the history
    could be read.  When the storage answers, the joiner first gets a
    history frame with the 50 newest rows of the room, oldest first.
    When the storage answers with an error, the joiner gets the error
    notice and no history frame at all. *)
Theorem join_history_reply w c message roomId uid nick st :
  valid_join message roomId uid nick ->
  let st' := exec (handleJoin w c message) st in
  let announce :=
    deliveries (recipients st' roomId) (JoinEvent uid nick (now w)) in
  lookup st' roomId uid = Some {| ws := c; userId := uid; nickname := nick |} /\
  bound st' c roomId uid nick /\
  (is_open st c = true -> In c (recipients st' roomId)) /\
  (storage w = storage_up ->
     let history := rev (select_recent (messages st) roomId 50) in
     new_sends st st' = (c, HistoryFrame history) :: announce /\
     ascending history /\
     length history = Nat.min 50 (length (room_rows (messages st) roomId)) /\
     exists older,
       Permutation (older ++ history) (room_rows (messages st) roomId) /\
       forall a b, In a older -> In b history ->
                   (created_at a <= created_at b)%nat) /\
  (forall e, storage w = storage_error e ->
     new_sends st st'
     = (c, ErrorFrame "Could not load message history") :: announce /\
     forall x, In x (new_sends st st') -> is_history (snd x) = false).
Proof.
  intros Hv st' announce.
  pose proof (lookup_after_join w c message roomId uid nick st Hv) as Hl.
  fold st' in Hl.
  destruct Hv as (H1 & H2 & H3 & H4 & H5 & H6).
  pose proof (handleJoin_valid w c message _ _ _ st H1 H2 H3 H4 H5 H6) as E.
  cbv zeta in E.
  assert (Hst : st' = snd (handleJoin w c message st)) by reflexivity.
  rewrite E in Hst. cbn [snd] in Hst.
  assert (Hsock : sockets st' c
                  = {| ws_roomId := Some roomId; ws_userId := Some uid;
                       ws_nickname := Some nick;
                       isAlive := isAlive (sockets st c);
                       readyState := readyState (sockets st c) |}).
  { rewrite Hst. destruct (storage w); cbn; now rewrite Nat.eqb_refl. }
  assert (Hrec : recipients st' roomId
                 = recipients (registered st c roomId uid nick) roomId).
  { rewrite Hst. destruct (storage w); reflexivity. }
  split; [exact Hl|]. split.
  { unfold bound. rewrite Hsock. cbn. auto. }
  split.
  { intro Hopen. apply In_recipients. split.
    - unfold is_open in *. rewrite Hsock. exact Hopen.
    - unfold lookup in Hl.
      destruct (JsMap.get (rooms st') roomId) as [room|] eqn:G; [|discriminate].
      exists room, uid, {| ws := c; userId := uid; nickname := nick |}.
      split; [reflexivity|]. split; [now apply get_In|reflexivity]. }
  split.
  - intros Hup history. rewrite Hup in Hst.
    split.
    + unfold announce. rewrite Hrec. apply new_sends_app. rewrite Hst. reflexivity.
    + apply select_recent_history.
  - intros e He. rewrite He in Hst.
    assert (Hnew : new_sends st st'
                   = (c, ErrorFrame "Could not load message history") :: announce).
    { unfold announce. rewrite Hrec. apply new_sends_app. rewrite Hst. reflexivity. }
    split; [exact Hnew|].
    intros x Hx. rewrite Hnew in Hx. destruct Hx as [<-|Hx]; [reflexivity|].
    destruct x as [c' f]. apply In_deliveries in Hx. destruct Hx as [_ ->].
    reflexivity.
Qed.

Lemma join_history_reply_witness :
  valid_join (join_frame "r1" "u1" "Alice") "r1" "u1" "Alice" /\
  lookup (exec (handleJoin Scenario.down 1 (join_frame "r1" "u1" "Alice")) initial)
         "r1" "u1"
  = Some {| ws := 1; userId := "u1"; nickname := "Alice" |}.
Proof.
  assert (H1 : valid_join (join_frame "r1" "u1" "Alice") "r1" "u1" "Alice").
  { unfold valid_join. repeat split; try reflexivity; discriminate. }
  split; [exact H1|].
  exact (proj1 (join_history_reply Scenario.down 1 _ "r1" "u1" "Alice" initial H1)).
Defined.

(** C8 as stated fails: when the history cannot be read the joiner gets
    the error notice and the join event, and no history frame, empty or
    not. *)
Lemma failed_history_fetch_sends_no_history :
  new_sends initial
    (exec (handleJoin Scenario.down 1 (join_frame "r1" "u1" "Alice")) initial)
  = [(1, ErrorFrame "Could not load message history");
     (1, JoinEvent "u1" "Alice" 9)] /\
  ~ In (1, HistoryFrame [])
       (new_sends initial
          (exec (handleJoin Scenario.down 1 (join_frame "r1" "u1" "Alice"))
                initial)).
Proof.
  split; [reflexivity|].
  vm_compute. intros [H|[H|[]]]; discriminate.
Qed.

End JoinProperties.
